(** * Conversation state machine and PIN file exchange of the Telegram bot

    A shallow embedding of [src/index.js]: the helper functions of the PIN
    registry ([generatePin], [isPinUnique], [generateUniquePin]), the
    capability wrappers ([sendMessageViaApi], [downloadFileFromUrl],
    [askGeminiAi]) and the handler registered with [bot.on('message', ...)].

    The in-memory [userStates] map and the Firestore collection are finite
    maps; what the handler does to the outside world is appended to a log of
    effects; everything the outside world decides (random draws, HTTP
    responses, failing store calls) is read from an environment record. *)

From Stdlib Require Import ZArith String Ascii List Bool Lia.
From stdpp Require Import base option gmap strings list.

Local Open Scope string_scope.
Local Open Scope list_scope.
Local Open Scope Z_scope.

(** ** JavaScript string operations used by the source *)

Module Js.

(** A string is truthy when it is not empty. *)
Definition truthy (s : string) : bool :=
  match s with
  | EmptyString => false
  | String _ _ => true
  end.

(** [s.startsWith(p)] *)
Fixpoint startsWith (p s : string) : bool :=
  match p, s with
  | EmptyString, _ => true
  | String a p', String b s' => if Ascii.eqb a b then startsWith p' s' else false
  | String _ _, EmptyString => false
  end.

(** [s.charAt(i)]: the one-character string at index [i], or the empty
    string when [i] is out of range. *)
Definition charAt (s : string) (i : nat) : string :=
  match String.get i s with
  | Some c => String c EmptyString
  | None => EmptyString
  end.

(** [s.split(' ')[0]]: the characters before the first space. *)
Fixpoint split_space_0 (s : string) : string :=
  match s with
  | EmptyString => EmptyString
  | String c s' => if Ascii.eqb c " "%char then EmptyString else String c (split_space_0 s')
  end.

Definition is_digit (c : ascii) : bool :=
  let n := nat_of_ascii c in (48 <=? n)%nat && (n <=? 57)%nat.

Fixpoint all_digits (s : string) : bool :=
  match s with
  | EmptyString => true
  | String c s' => is_digit c && all_digits s'
  end.

(** The white space that [trim] removes, on the ASCII range: tab, line
    feed, vertical tab, form feed, carriage return and space.  Strings are
    bytes here; the white space outside ASCII that [trim] removes as well
    (U+00A0, U+FEFF, U+2028 and the like) is not covered, such bytes are
    kept. *)
Definition is_white (c : ascii) : bool :=
  let n := nat_of_ascii c in ((9 <=? n)%nat && (n <=? 13)%nat) || (n =? 32)%nat.

Fixpoint trimStart (s : string) : string :=
  match s with
  | EmptyString => EmptyString
  | String c s' => if is_white c then trimStart s' else s
  end.

(** Dropping the white space at the end: a white character goes when
    nothing but white space follows it. *)
Fixpoint trimEnd (s : string) : string :=
  match s with
  | EmptyString => EmptyString
  | String c s' =>
      match trimEnd s' with
      | EmptyString => if is_white c then EmptyString else String c EmptyString
      | String _ _ as r => String c r
      end
  end.

(** [s.trim()] *)
Definition trim (s : string) : string := trimEnd (trimStart s).

Definition upper_char (c : ascii) : ascii :=
  let n := nat_of_ascii c in
  if (97 <=? n)%nat && (n <=? 122)%nat then ascii_of_nat (n - 32) else c.

(** [s.toUpperCase()], on the ASCII range; other bytes are kept (the
    letters outside ASCII, which JavaScript maps too, are not covered). *)
Fixpoint toUpperCase (s : string) : string :=
  match s with
  | EmptyString => EmptyString
  | String c s' => String (upper_char c) (toUpperCase s')
  end.

End Js.

(** ** Data *)

(** [STATES] (lines 78-87). *)
Inductive State :=
| NONE
| SENDMSG_ASK_NUMBER
| SENDMSG_ASK_MESSAGE
| YT_ASK_URL
| UPLOAD_WAIT_FILE
| GETFILE_ASK_PIN
| AI_ASK_QUERY
| DOWNLOAD_ASK_URL.

#[global] Instance State_eq_dec : EqDecision State.
Proof. solve_decision. Defined.

(** An attachment object of an inbound message ([msg.document], [msg.video],
    [msg.audio] or one element of [msg.photo]).  Optional fields of the chat
    platform are options; [file_size] is a JavaScript number. *)
Record FileObj := {
  file_id : string;
  file_unique_id : string;
  file_name : option string;
  mime_type : option string;
  file_size : option Z
}.

(** The inbound message, with the fields the handler reads. *)
Record Msg := {
  chat_id : Z;
  from_id : Z;
  text : option string;
  document : option FileObj;
  photo : option (list FileObj);
  video : option FileObj;
  audio : option FileObj
}.

(** The document written to the Firestore collection (lines 355-363); the
    [upload_timestamp] is filled in by the store and is left out. *)
Record FileMetadata := {
  md_file_id : string;
  md_file_name : string;
  md_mime_type : string;
  md_file_size : option Z;
  md_pin : string;
  md_uploaded_by : Z
}.

(** The fixed texts the bot sends, one constructor per message text of the
    source, with the values interpolated into it. *)
Inductive Reply :=
| R_invalid_number_example
| R_ask_message
| R_invalid_number
| R_sending_message
| R_message_sent
| R_message_failed
| R_number_or_message_missing
| R_enter_message
| R_yt_unavailable
| R_invalid_url
| R_send_valid_file
| R_upload_too_large (size : Z)
| R_upload_unavailable
| R_storing_file
| R_upload_ok (pin : string)
| R_upload_error
| R_download_unavailable
| R_looking_up (pin : string)
| R_file_id_missing
| R_stored_too_large (size : Z)
| R_downloading_stored
| R_file_sent
| R_send_failed
| R_invalid_pin
| R_lookup_error
| R_enter_pin
| R_ai_unavailable
| R_ai_thinking
| R_ai_text (answer : string)
| R_ai_error
| R_enter_query
| R_help
| R_ask_number
| R_ask_url
| R_ask_file
| R_cancelled
| R_not_understood
| R_use_upload_file
| R_url_downloading
| R_url_too_large (size : Z)
| R_url_sending
| R_url_error (message : string).

(** What [bot.sendDocument] is given as the file. *)
Inductive DocSource :=
| ByFileId (ref : string)
| ByPath (filename : string).

(** What one run of the handler does to the outside world. *)
Inductive Effect :=
| sendMessage (chat : Z) (r : Reply)
| sendDocument (chat : Z) (src : DocSource) (filename : string)
| relayPost (number message : string)
| geminiGenerate (query : string)
| urlFetch (url : string)
| uncaughtTypeError.

(** The outcome of the HTTP POST of [sendMessageViaApi]. *)
Inductive RelayResponse :=
| RelayThrows
| RelayHttp (ok : bool) (status : option string).

(** The outcome of [fetch(url)] in [downloadFileFromUrl]: the call throws,
    or answers with [response.ok], the file name lines 189-200 derive from
    the headers and the URL, and the number of bytes of the body. *)
Inductive UrlResponse :=
| UrlThrows (message : string)
| UrlHttp (ok : bool) (filename : string) (size : Z).

(** Everything one run of the handler reads from outside. *)
Record Env := {
  FILES_COLLECTION : bool;            (* the Firestore collection is not null *)
  geminiModel : bool;                 (* the AI model is not null *)
  random_index : nat -> nat;          (* n-th Math.floor(Math.random() * 36) *)
  firestore_get_throws : nat -> bool; (* the n-th read of this run throws *)
  firestore_set_throws : FileMetadata -> bool;
  relay_response : string -> string -> RelayResponse;
  gemini_response : string -> option string;
  url_response : string -> UrlResponse;
  sendDocument_throws : bool
}.

(** The state the handler works on: the [userStates] map (its number keys
    [chatId] hold states, its string keys [chatId + '_number'] hold phone
    numbers, so the two key spaces are two maps), the Firestore collection,
    and the log of effects, oldest first. *)
Record World := {
  userStates : gmap Z State;
  userNumbers : gmap Z string;
  files : gmap string FileMetadata;
  log : list Effect
}.

(** ** PIN registry (lines 90-121) *)

Definition characters : string := "ABCDEFGHIJKLMNOPQRSTUVWXYZ0123456789".

(** [generatePin(length)], reading the random stream from position [pos]. *)
Fixpoint generatePin (rnd : nat -> nat) (pos length : nat) : string :=
  match length with
  | O => EmptyString
  | S n => Js.charAt characters (rnd pos) +:+ generatePin rnd (S pos) n
  end.

(** [isPinUnique(pin)], as the [n]-th read of the run. *)
Definition isPinUnique (env : Env) (store : gmap string FileMetadata)
    (n : nat) (pin : string) : bool :=
  if negb (FILES_COLLECTION env) then false
  else if firestore_get_throws env n then false
  else match store !! pin with
       | Some _ => false
       | None => true
       end.

(** The candidate of attempt [k] of [generateUniquePin(length)]. *)
Definition candidate (env : Env) (length k : nat) : string :=
  generatePin (random_index env) (k * length) length.

(** [generateUniquePin(length)], from attempt [k] on: the [while (true)] loop
    run for at most [fuel] iterations.  [None] says that the loop is still
    running after [fuel] iterations; the loop has no other exit than
    [return pin]. *)
Fixpoint generateUniquePin_from (fuel : nat) (env : Env)
    (store : gmap string FileMetadata) (length k : nat) : option string :=
  match fuel with
  | O => None
  | S fuel' =>
      let pin := candidate env length k in
      if isPinUnique env store k pin then Some pin
      else generateUniquePin_from fuel' env store length (S k)
  end.

Definition generateUniquePin (fuel : nat) (env : Env)
    (store : gmap string FileMetadata) : option string :=
  generateUniquePin_from fuel env store 6 0.

(** ** Updates of the world *)

Definition emit (e : Effect) (w : World) : World :=
  {| userStates := userStates w; userNumbers := userNumbers w;
     files := files w; log := log w ++ [e] |}.

Definition say (chat : Z) (r : Reply) (w : World) : World :=
  emit (sendMessage chat r) w.

(** [userStates.set(chatId, s)] *)
Definition set_state (chat : Z) (s : State) (w : World) : World :=
  {| userStates := <[chat := s]> (userStates w); userNumbers := userNumbers w;
     files := files w; log := log w |}.

(** [userStates.delete(chatId)] *)
Definition delete_state (chat : Z) (w : World) : World :=
  {| userStates := delete chat (userStates w); userNumbers := userNumbers w;
     files := files w; log := log w |}.

(** [userStates.set(chatId + '_number', n)] *)
Definition set_number (chat : Z) (n : string) (w : World) : World :=
  {| userStates := userStates w; userNumbers := <[chat := n]> (userNumbers w);
     files := files w; log := log w |}.

(** [userStates.delete(chatId + '_number')] *)
Definition delete_number (chat : Z) (w : World) : World :=
  {| userStates := userStates w; userNumbers := delete chat (userNumbers w);
     files := files w; log := log w |}.

(** [FILES_COLLECTION.doc(pin).set(md)] *)
Definition store_file (pin : string) (md : FileMetadata) (w : World) : World :=
  {| userStates := userStates w; userNumbers := userNumbers w;
     files := <[pin := md]> (files w); log := log w |}.

(** [userStates.get(chatId) || STATES.NONE] (line 254) *)
Definition currentState (w : World) (chat : Z) : State :=
  default NONE (userStates w !! chat).

(** [userStates.get(chatId + '_number')] *)
Definition pendingNumber (w : World) (chat : Z) : option string :=
  userNumbers w !! chat.

(** ** Capability wrappers *)

(** [sendMessageViaApi(number, messageText)] (lines 124-155): [true] only
    for a 2xx answer whose body has [status === "success"]. *)
Definition sendMessageViaApi (env : Env) (number messageText : string) : bool :=
  match relay_response env number messageText with
  | RelayThrows => false
  | RelayHttp false _ => false
  | RelayHttp true (Some status) => String.eqb status "success"
  | RelayHttp true None => false
  end.

(** [askGeminiAi(query)] (lines 158-172), as the reply that is then sent. *)
Definition askGeminiAi (env : Env) (query : string) : Reply :=
  if negb (geminiModel env) then R_ai_unavailable
  else match gemini_response env query with
       | Some answer => R_ai_text answer
       | None => R_ai_error
       end.

(** Line 5 binds [fs] to [require('fs').promises].  These are the members of
    [fs] the source calls; the promise API of Node has [mkdtemp], [stat] and
    [rm], and it has no [createWriteStream] (that one belongs to the
    callback module [require('fs')]), so the property is [undefined]. *)
Inductive FsMember := Fs_mkdtemp | Fs_createWriteStream | Fs_stat | Fs_rm.

Definition fs (m : FsMember) : bool :=
  match m with
  | Fs_createWriteStream => false
  | Fs_mkdtemp | Fs_stat | Fs_rm => true
  end.

(** [TELEGRAM_FILE_LIMIT] (lines 215, 333, 408) *)
Definition TELEGRAM_FILE_LIMIT : Z := 50 * 1024 * 1024.

(** [downloadFileFromUrl(url, chatId)] (lines 175-241).  Everything after
    the first message runs inside [try]; an exception is reported with its
    message by the [catch] block (the status code in the text of the HTTP
    error is left out).  Calling the undefined [fs.createWriteStream]
    (line 203) raises a [TypeError].  [fs.mkdtemp] and the sending of
    messages are taken to succeed. *)
Definition downloadFileFromUrl (env : Env) (url : string) (chat : Z) (w : World) : World :=
  let w := say chat R_url_downloading w in
  let w := emit (urlFetch url) w in
  match url_response env url with
  | UrlThrows message => say chat (R_url_error message) w
  | UrlHttp false _ _ => say chat (R_url_error "HTTP error!") w
  | UrlHttp true filename fileSize =>
      if negb (fs Fs_createWriteStream)
      then say chat (R_url_error "fs.createWriteStream is not a function") w
      else if TELEGRAM_FILE_LIMIT <? fileSize
      then say chat (R_url_too_large fileSize) w
      else
        let w := say chat R_url_sending w in
        let w := emit (sendDocument chat (ByPath filename) filename) w in
        say chat R_file_sent w
  end.

(** ** The message handler (lines 246-557) *)

(** Whether a conversation branch ended with [return] or runs on into the
    command block. *)
Inductive Flow := Continue | Return.

(** [text && !text.startsWith('/')]: the text when the test holds. *)
Definition plain_text (msg : Msg) : option string :=
  match text msg with
  | Some t => if Js.truthy t && negb (Js.startsWith "/" t) then Some t else None
  | None => None
  end.

(** [text && text.startsWith('/')]: the text when the test holds. *)
Definition command_text (msg : Msg) : option string :=
  match text msg with
  | Some t => if Js.truthy t && Js.startsWith "/" t then Some t else None
  | None => None
  end.

(** [/^\d{10,}$/.test(s)] *)
Definition is_phone_number (s : string) : bool :=
  (10 <=? String.length s)%nat && Js.all_digits s.

(** [x || fallback] on an optional string. *)
Definition or_string (x : option string) (fallback : string) : string :=
  match x with
  | Some s => if Js.truthy s then s else fallback
  | None => fallback
  end.

(** [x || 0] on an optional number. *)
Definition or_zero (x : option Z) : Z :=
  match x with
  | Some n => n
  | None => 0
  end.

(** [x && x > TELEGRAM_FILE_LIMIT] on an optional number (line 334): the
    number has to be there and not zero to be truthy. *)
Definition declared_oversized (x : option Z) : bool :=
  match x with
  | Some n => negb (n =? 0) && (TELEGRAM_FILE_LIMIT <? n)
  | None => false
  end.

(** Lines 307-326: which attachment the upload branch takes, with the file
    name it gives it.  An empty [photo] array is truthy and has no last
    element, so reading [fileObj.file_unique_id] raises a [TypeError]. *)
Inductive Selected :=
| NoFile
| Picked (fileObj : FileObj) (fileName : string)
| NoLastPhoto.

Definition select_file (msg : Msg) : Selected :=
  match document msg, video msg, audio msg, photo msg with
  | Some d, _, _, _ => Picked d (or_string (file_name d) "uploaded_file")
  | None, Some v, _, _ => Picked v (or_string (file_name v) "uploaded_file")
  | None, None, Some a, _ => Picked a (or_string (file_name a) "uploaded_file")
  | None, None, None, Some ps =>
      match last ps with
      | Some p => Picked p ("photo_" +:+ file_unique_id p +:+ ".jpg")
      | None => NoLastPhoto
      end
  | None, None, None, None => NoFile
  end.

(** Lines 355-363. *)
Definition fileMetadata (msg : Msg) (fileObj : FileObj) (fileName uniquePin : string)
    : FileMetadata :=
  {| md_file_id := file_id fileObj;
     md_file_name := fileName;
     md_mime_type := or_string (mime_type fileObj) "application/octet-stream";
     md_file_size := file_size fileObj;
     md_pin := uniquePin;
     md_uploaded_by := from_id msg |}.

(** Lines 259-272. *)
Definition on_SENDMSG_ASK_NUMBER (msg : Msg) (w : World) : World * Flow :=
  let chatId := chat_id msg in
  match plain_text msg with
  | Some numberInput =>
      if negb (is_phone_number numberInput)
      then (say chatId R_invalid_number_example w, Return)
      else
        let w := set_state chatId SENDMSG_ASK_MESSAGE w in
        let w := set_number chatId numberInput w in
        (say chatId R_ask_message w, Continue)
  | None => (say chatId R_invalid_number w, Continue)
  end.

(** Lines 273-294. *)
Definition on_SENDMSG_ASK_MESSAGE (env : Env) (msg : Msg) (w : World) : World * Flow :=
  let chatId := chat_id msg in
  match plain_text msg with
  | Some messageTextInput =>
      let w :=
        match pendingNumber w chatId with
        | Some number =>
            if Js.truthy number && Js.truthy messageTextInput
            then
              let w := say chatId R_sending_message w in
              let w := emit (relayPost number messageTextInput) w in
              if sendMessageViaApi env number messageTextInput
              then say chatId R_message_sent w
              else say chatId R_message_failed w
            else say chatId R_number_or_message_missing w
        | None => say chatId R_number_or_message_missing w
        end in
      (delete_number chatId (delete_state chatId w), Continue)
  | None => (say chatId R_enter_message w, Continue)
  end.

(** Lines 295-298. *)
Definition on_YT_ASK_URL (msg : Msg) (w : World) : World * Flow :=
  let chatId := chat_id msg in
  (delete_state chatId (say chatId R_yt_unavailable w), Continue).

(** Lines 299-305. *)
Definition on_DOWNLOAD_ASK_URL (env : Env) (msg : Msg) (w : World) : World * Flow :=
  let chatId := chat_id msg in
  match text msg with
  | Some t =>
      if Js.truthy t && (Js.startsWith "http://" t || Js.startsWith "https://" t)
      then (delete_state chatId (downloadFileFromUrl env t chatId w), Continue)
      else (say chatId R_invalid_url w, Continue)
  | None => (say chatId R_invalid_url w, Continue)
  end.

(** Lines 306-379.  [None] when [generateUniquePin] is still looping after
    [fuel] iterations.  In the branch of line 334 the size is declared, so
    [or_zero] gives the number that the reply shows.  This is one run taken
    on its own: no other run writes to the collection between the reads of
    [generateUniquePin] and the [set] of line 365; runs whose reads and
    writes interleave are the subject of [Interleaving]. *)
Definition on_UPLOAD_WAIT_FILE (fuel : nat) (env : Env) (msg : Msg) (w : World)
    : option (World * Flow) :=
  let chatId := chat_id msg in
  match select_file msg with
  | NoLastPhoto => Some (emit uncaughtTypeError w, Return)
  | NoFile => Some (say chatId R_send_valid_file w, Return)
  | Picked fileObj fileName =>
      if declared_oversized (file_size fileObj)
      then Some (delete_state chatId
                   (say chatId (R_upload_too_large (or_zero (file_size fileObj))) w), Return)
      else if negb (FILES_COLLECTION env)
      then Some (delete_state chatId (say chatId R_upload_unavailable w), Return)
      else
        let w := say chatId R_storing_file w in
        match generateUniquePin fuel env (files w) with
        | None => None
        | Some uniquePin =>
            let md := fileMetadata msg fileObj fileName uniquePin in
            let w :=
              if firestore_set_throws env md
              then say chatId R_upload_error w
              else say chatId (R_upload_ok uniquePin) (store_file uniquePin md w) in
            Some (delete_state chatId w, Continue)
        end
  end.

(** Lines 380-455.  The document is read under the key [pin] itself: that
    is the document [doc(pin)] names when [pin] is a document id, as a
    non-empty string of PIN characters is.  How the client resolves other
    strings as paths (slashes, the empty string) is not covered. *)
Definition on_GETFILE_ASK_PIN (env : Env) (msg : Msg) (w : World) : World * Flow :=
  let chatId := chat_id msg in
  match plain_text msg with
  | Some t =>
      let pin := Js.toUpperCase (Js.trim t) in
      if negb (FILES_COLLECTION env)
      then (delete_state chatId (say chatId R_download_unavailable w), Return)
      else
        let w := say chatId (R_looking_up pin) w in
        if firestore_get_throws env 0
        then (delete_state chatId (say chatId R_lookup_error w), Continue)
        else
          match files w !! pin with
          | Some md =>
              let telegramFileId := md_file_id md in
              let fileName := or_string (Some (md_file_name md)) "downloaded_file" in
              let fileSize := or_zero (md_file_size md) in
              if negb (Js.truthy telegramFileId)
              then (delete_state chatId (say chatId R_file_id_missing w), Return)
              else if TELEGRAM_FILE_LIMIT <? fileSize
              then (delete_state chatId (say chatId (R_stored_too_large fileSize) w), Return)
              else
                let w := say chatId R_downloading_stored w in
                let w :=
                  if sendDocument_throws env
                  then say chatId R_send_failed w
                  else say chatId R_file_sent
                         (emit (sendDocument chatId (ByFileId telegramFileId) fileName) w) in
                (delete_state chatId w, Continue)
          | None => (delete_state chatId (say chatId R_invalid_pin w), Continue)
          end
  | None => (say chatId R_enter_pin w, Continue)
  end.

(** Lines 456-469. *)
Definition on_AI_ASK_QUERY (env : Env) (msg : Msg) (w : World) : World * Flow :=
  let chatId := chat_id msg in
  match plain_text msg with
  | Some query =>
      if negb (geminiModel env)
      then (delete_state chatId (say chatId R_ai_unavailable w), Return)
      else
        let w := say chatId R_ai_thinking w in
        let w := emit (geminiGenerate query) w in
        let w := say chatId (askGeminiAi env query) w in
        (delete_state chatId w, Continue)
  | None => (say chatId R_enter_query w, Continue)
  end.

(** The conversation handlers (lines 259-470), chosen by the state read at
    the start of the run. *)
Definition conversation (fuel : nat) (env : Env) (current : State) (msg : Msg) (w : World)
    : option (World * Flow) :=
  match current with
  | NONE => Some (w, Continue)
  | SENDMSG_ASK_NUMBER => Some (on_SENDMSG_ASK_NUMBER msg w)
  | SENDMSG_ASK_MESSAGE => Some (on_SENDMSG_ASK_MESSAGE env msg w)
  | YT_ASK_URL => Some (on_YT_ASK_URL msg w)
  | DOWNLOAD_ASK_URL => Some (on_DOWNLOAD_ASK_URL env msg w)
  | UPLOAD_WAIT_FILE => on_UPLOAD_WAIT_FILE fuel env msg w
  | GETFILE_ASK_PIN => Some (on_GETFILE_ASK_PIN env msg w)
  | AI_ASK_QUERY => Some (on_AI_ASK_QUERY env msg w)
  end.

(** The command handlers (lines 476-534) for [command = text.split(' ')[0]]. *)
Definition on_command (env : Env) (chatId : Z) (command : string) (w : World) : World :=
  if String.eqb command "/start" then say chatId R_help w
  else if String.eqb command "/sendmsg"
  then say chatId R_ask_number (set_state chatId SENDMSG_ASK_NUMBER w)
  else if String.eqb command "/yt_download"
  then say chatId R_yt_unavailable (set_state chatId YT_ASK_URL w)
  else if String.eqb command "/download_url"
  then say chatId R_ask_url (set_state chatId DOWNLOAD_ASK_URL w)
  else if String.eqb command "/upload_file"
  then if negb (FILES_COLLECTION env) then say chatId R_upload_unavailable w
       else say chatId R_ask_file (set_state chatId UPLOAD_WAIT_FILE w)
  else if String.eqb command "/get_file"
  then if negb (FILES_COLLECTION env) then say chatId R_download_unavailable w
       else say chatId R_enter_pin (set_state chatId GETFILE_ASK_PIN w)
  else if String.eqb command "/ask_ai"
  then if negb (geminiModel env) then say chatId R_ai_unavailable w
       else say chatId R_enter_query (set_state chatId AI_ASK_QUERY w)
  else if String.eqb command "/cancel"
  then say chatId R_cancelled (delete_number chatId (delete_state chatId w))
  else say chatId R_not_understood w.

(** Whether the message carries any attachment (line 543). *)
Definition has_attachment (msg : Msg) : bool :=
  match document msg, photo msg, video msg, audio msg with
  | None, None, None, None => false
  | _, _, _, _ => true
  end.

(** Lines 474-556: the command block, and the fallback for a message that is
    no command when the state read at the start of the run was [NONE]. *)
Definition commands (env : Env) (current : State) (msg : Msg) (w : World) : World :=
  let chatId := chat_id msg in
  match command_text msg with
  | Some t => on_command env chatId (Js.split_space_0 t) w
  | None =>
      match current with
      | NONE =>
          match text msg with
          | Some t =>
              if Js.truthy t then say chatId R_not_understood w
              else if has_attachment msg then say chatId R_use_upload_file w
              else say chatId R_not_understood w
          | None =>
              if has_attachment msg then say chatId R_use_upload_file w
              else say chatId R_not_understood w
          end
      | _ => w
      end
  end.

(** One run of the handler on [msg].  The state is read once, at the start
    (line 254); a conversation branch that does not [return] is followed by
    the command block.  [None] only when [generateUniquePin] does not return
    within [fuel] iterations. *)
Definition on_message (fuel : nat) (env : Env) (msg : Msg) (w : World) : option World :=
  let current := currentState w (chat_id msg) in
  match conversation fuel env current msg w with
  | None => None
  | Some (w', Return) => Some w'
  | Some (w', Continue) => Some (commands env current msg w')
  end.

(** The characters a PIN is made of: upper-case letters and digits. *)
Definition pin_char (c : ascii) : bool :=
  let n := nat_of_ascii c in
  ((65 <=? n)%nat && (n <=? 90)%nat) || ((48 <=? n)%nat && (n <=? 57)%nat).

Fixpoint all_pin_chars (s : string) : bool :=
  match s with
  | EmptyString => true
  | String c s' => pin_char c && all_pin_chars s'
  end.


(** The effects a run added to the log: what [w'] has after the log of [w]. *)
Definition emitted (w w' : World) : list Effect :=
  drop (length (log w)) (log w').

(** Whether an effect is the "too large to store" reply of the upload
    branch (line 337). *)
Definition is_upload_too_large (e : Effect) : bool :=
  match e with
  | sendMessage _ (R_upload_too_large _) => true
  | _ => false
  end.

Definition is_sendDocument (e : Effect) : bool :=
  match e with
  | sendDocument _ _ _ => true
  | _ => false
  end.

(** ** Worlds the bot can be in *)

(** A fresh process: nothing in [userStates]; the Firestore collection holds
    whatever it holds. *)
Definition fresh (store : gmap string FileMetadata) : World :=
  {| userStates := ∅; userNumbers := ∅; files := store; log := [] |}.

(** The process was recycled (comment at lines 74-75): the in-memory map is
    empty again, the collection is kept. *)
Definition cold_start (w : World) : World :=
  {| userStates := ∅; userNumbers := ∅; files := files w; log := log w |}.

(** The worlds reached by handling messages one after the other. *)
Inductive Reachable : World -> Prop :=
| reach_fresh store : Reachable (fresh store)
| reach_cold_start w : Reachable w -> Reachable (cold_start w)
| reach_message fuel env msg w w' :
    Reachable w -> on_message fuel env msg w = Some w' -> Reachable w'.

(** In state [SENDMSG_ASK_MESSAGE] the session holds a number that passed
    the check of line 262. *)
Definition number_ready (chat : Z) (w : World) : Prop :=
  userStates w !! chat = Some SENDMSG_ASK_MESSAGE ->
  exists number, userNumbers w !! chat = Some number /\ is_phone_number number = true.

(** ** Two issuances against one store

    Two runs of the upload branch (lines 352-365) that share the Firestore
    collection.  Each run reads the collection once per attempt of
    [generateUniquePin] (the [get] of [isPinUnique]) and writes its record
    with a later [set]; every such store call is one step, and a schedule
    says whose step comes next. *)
Module Interleaving.

Inductive Issuer :=
| Generating (k : nat)        (* in the loop, about to make attempt [k] *)
| Writing (pin : string)      (* [generateUniquePin] returned; [set] is next *)
| Finished (pin : string).    (* the record is written, the PIN replied *)

Inductive Who := First | Second.

Record Config := {
  first : Issuer;
  second : Issuer;
  store : gmap string FileMetadata
}.

Definition issuer_step (env : Env) (md : string -> FileMetadata)
    (i : Issuer) (st : gmap string FileMetadata)
    : Issuer * gmap string FileMetadata :=
  match i with
  | Generating k =>
      let pin := candidate env 6 k in
      if isPinUnique env st k pin then (Writing pin, st) else (Generating (S k), st)
  | Writing pin => (Finished pin, <[pin := md pin]> st)
  | Finished pin => (Finished pin, st)
  end.

Section Two.

Variables (env1 env2 : Env) (md1 md2 : string -> FileMetadata).

Definition step (who : Who) (c : Config) : Config :=
  match who with
  | First =>
      let '(i, st) := issuer_step env1 md1 (first c) (store c) in
      {| first := i; second := second c; store := st |}
  | Second =>
      let '(i, st) := issuer_step env2 md2 (second c) (store c) in
      {| first := first c; second := i; store := st |}
  end.

Fixpoint run (schedule : list Who) (c : Config) : Config :=
  match schedule with
  | [] => c
  | who :: rest => run rest (step who c)
  end.

End Two.

Definition start (st : gmap string FileMetadata) : Config :=
  {| first := Generating 0; second := Generating 0; store := st |}.

(** A finished issuance has its record in the collection. *)
Definition finished_recorded (c : Config) : Prop :=
  forall p, first c = Finished p -> is_Some (store c !! p).

(** While [p] is in the collection, the second issuance does not come
    to hold [p]. *)
Definition second_avoids (p : string) (c : Config) : Prop :=
  is_Some (store c !! p)
  /\ second c <> Writing p /\ second c <> Finished p.

End Interleaving.

(** ** Concrete inputs used by the examples *)

Module Sample.

(** An environment in which every outside call works; the random draws
    are 0, 1, 2, ..., so the first candidate is ["ABCDEF"]. *)
Definition env : Env :=
  {| FILES_COLLECTION := true;
     geminiModel := true;
     random_index := fun n => n;
     firestore_get_throws := fun _ => false;
     firestore_set_throws := fun _ => false;
     relay_response := fun _ _ => RelayHttp true (Some "success");
     gemini_response := fun q => Some q;
     url_response := fun _ => UrlHttp true "a.txt" 5;
     sendDocument_throws := false |}.

(** The same, with every random draw 0: every candidate is ["AAAAAA"]. *)
Definition env_A : Env :=
  {| FILES_COLLECTION := true;
     geminiModel := true;
     random_index := fun _ => O;
     firestore_get_throws := fun _ => false;
     firestore_set_throws := fun _ => false;
     relay_response := fun _ _ => RelayHttp true (Some "success");
     gemini_response := fun q => Some q;
     url_response := fun _ => UrlHttp true "a.txt" 5;
     sendDocument_throws := false |}.

Definition text_message (chat : Z) (t : string) : Msg :=
  {| chat_id := chat; from_id := chat; text := Some t;
     document := None; photo := None; video := None; audio := None |}.

Definition attachment (size : option Z) : FileObj :=
  {| file_id := "BQACAgQAAx0"; file_unique_id := "AgADBQ";
     file_name := Some "report.pdf"; mime_type := Some "application/pdf";
     file_size := size |}.

Definition document_message (chat : Z) (size : option Z) : Msg :=
  {| chat_id := chat; from_id := chat; text := None;
     document := Some (attachment size); photo := None; video := None; audio := None |}.

Definition record (pin : string) (size : option Z) : FileMetadata :=
  {| md_file_id := "BQACAgQAAx0"; md_file_name := "report.pdf";
     md_mime_type := "application/pdf"; md_file_size := size;
     md_pin := pin; md_uploaded_by := 1 |}.

(** A collection in which ["AAAAAA"] is taken. *)
Definition occupied_A : gmap string FileMetadata :=
  {[ "AAAAAA" := record "AAAAAA" (Some 5) ]}.

(** A chat that was asked for a file. *)
Definition waiting_for_file : World :=
  set_state 1 UPLOAD_WAIT_FILE (fresh ∅).

(** A chat that gave its number and was asked for the message. *)
Definition asked_for_message : World :=
  set_number 1 "94712345678" (set_state 1 SENDMSG_ASK_MESSAGE (fresh ∅)).

Definition asked_for_number : World :=
  set_state 1 SENDMSG_ASK_NUMBER (fresh ∅).

Definition asked_for_url : World :=
  set_state 1 DOWNLOAD_ASK_URL (fresh ∅).

(** The world after a run of the handler (the world itself when the run
    does not return). *)
Definition after (fuel : nat) (e : Env) (msg : Msg) (w : World) : World :=
  default w (on_message fuel e msg w).

(** The world after [/sendmsg] and a number, from a fresh process. *)
Definition number_given : World :=
  after 0 env (text_message 1 "94712345678")
    (after 0 env (text_message 1 "/sendmsg") (fresh ∅)).

(** A chat that was asked for a PIN, with one record in the collection. *)
Definition asked_for_pin (size : option Z) : World :=
  set_state 2 GETFILE_ASK_PIN (fresh {[ "ABCDEF" := record "ABCDEF" size ]}).

End Sample.

(** ** Predicates on runs of the handler *)

(** The effects a run of the handler makes on every path but the resend of
    a stored file: messages to the chat [c], and calls of the outside
    services; no document. *)
Definition tame (c : Z) (e : Effect) : Prop :=
  match e with
  | sendMessage c' _ => c' = c
  | sendDocument _ _ _ => False
  | relayPost _ _ | geminiGenerate _ | urlFetch _ | uncaughtTypeError => True
  end.

(** Effects that are addressed to a chat are addressed to [c]. *)
Definition addressed_to (c : Z) (e : Effect) : Prop :=
  match e with
  | sendMessage c' _ | sendDocument c' _ _ => c' = c
  | relayPost _ _ | geminiGenerate _ | urlFetch _ | uncaughtTypeError => True
  end.

(** [w'] has the log of [w] and, after it, effects that all satisfy [P]. *)
Definition grows (P : Effect -> Prop) (w w' : World) : Prop :=
  exists new, log w' = log w ++ new /\ Forall P new.

(** The entries of [userStates] of every chat but [c] are the same. *)
Definition same_elsewhere (c : Z) (w w' : World) : Prop :=
  forall chat, chat <> c ->
    userStates w' !! chat = userStates w !! chat
    /\ userNumbers w' !! chat = userNumbers w !! chat.

(** A record as the upload branch writes it: it carries its own key, the
    key is made of PIN characters, and its size passed the test of
    line 334. *)
Definition wellformed_record (pin : string) (md : FileMetadata) : Prop :=
  md_pin md = pin
  /\ all_pin_chars pin = true
  /\ declared_oversized (md_file_size md) = false.

Definition wellformed_collection (store : gmap string FileMetadata) : Prop :=
  forall pin md, store !! pin = Some md -> wellformed_record pin md.

(** The texts of a list of messages handled one after the other; [None]
    when a run does not return. *)
Fixpoint on_messages (fuel : nat) (env : Env) (msgs : list Msg) (w : World) : option World :=
  match msgs with
  | [] => Some w
  | msg :: rest =>
      match on_message fuel env msg w with
      | Some w' => on_messages fuel env rest w'
      | None => None
      end
  end.

(** The Firestore client does not write a document one of whose fields has
    the value [undefined]: [set] throws (the client is created at line 37
    with its default settings, which do not ignore such fields).  Of the
    fields of lines 355-363 only [file_size] can be [undefined]: the others
    have a default or are always there. *)
Definition rejects_undefined (env : Env) : Prop :=
  forall md, md_file_size md = None -> firestore_set_throws env md = true.

(** Further inputs for the examples. *)
Module Sample2.

(** An environment without any configured service, in which every call to
    the outside fails. *)
Definition env_down : Env :=
  {| FILES_COLLECTION := false;
     geminiModel := false;
     random_index := fun n => n;
     firestore_get_throws := fun _ => true;
     firestore_set_throws := fun _ => true;
     relay_response := fun _ _ => RelayThrows;
     gemini_response := fun _ => None;
     url_response := fun _ => UrlThrows "fetch failed";
     sendDocument_throws := true |}.

(** The collection is configured, and every read and write of it throws. *)
Definition env_store_failing : Env :=
  {| FILES_COLLECTION := true;
     geminiModel := true;
     random_index := fun n => n;
     firestore_get_throws := fun _ => true;
     firestore_set_throws := fun _ => true;
     relay_response := fun _ _ => RelayHttp true (Some "error");
     gemini_response := fun _ => None;
     url_response := fun _ => UrlHttp false "" 0;
     sendDocument_throws := true |}.

(** Reads work, writes throw. *)
Definition env_write_failing : Env :=
  {| FILES_COLLECTION := true;
     geminiModel := true;
     random_index := fun n => n;
     firestore_get_throws := fun _ => false;
     firestore_set_throws := fun _ => true;
     relay_response := fun _ _ => RelayHttp true (Some "success");
     gemini_response := fun q => Some q;
     url_response := fun _ => UrlHttp true "a.txt" 5;
     sendDocument_throws := false |}.

(** Every service works, and the collection behaves as the Firestore
    client does: a record without a size is not written. *)
Definition env_firestore : Env :=
  {| FILES_COLLECTION := true;
     geminiModel := true;
     random_index := fun n => n;
     firestore_get_throws := fun _ => false;
     firestore_set_throws :=
       fun md => match md_file_size md with None => true | Some _ => false end;
     relay_response := fun _ _ => RelayHttp true (Some "success");
     gemini_response := fun q => Some q;
     url_response := fun _ => UrlHttp true "a.txt" 5;
     sendDocument_throws := false |}.


Definition photo_message (chat : Z) (variants : list FileObj) : Msg :=
  {| chat_id := chat; from_id := chat; text := None;
     document := None; photo := Some variants; video := None; audio := None |}.

Definition sticker_message (chat : Z) : Msg :=
  {| chat_id := chat; from_id := chat; text := None;
     document := None; photo := None; video := None; audio := None |}.

(** Two chats in the middle of different flows. *)
Definition two_chats : World :=
  set_state 2 GETFILE_ASK_PIN
    (set_number 1 "94712345678" (set_state 1 SENDMSG_ASK_MESSAGE (fresh ∅))).

Definition asked_for_query : World := set_state 1 AI_ASK_QUERY (fresh ∅).


End Sample2.

(** The position of a PIN character in [characters]: letters first, then
    digits. *)
Definition pin_index (c : ascii) : nat :=
  let n := nat_of_ascii c in
  if (n <? 58)%nat then (n - 48 + 26)%nat else (n - 65)%nat.

(** What holds of two issuances at every point of every schedule, for the
    collection [st] they started from. *)
Definition issuance_invariant (st : gmap string FileMetadata)
    (c : Interleaving.Config) : Prop :=
  (forall p, is_Some (st !! p) -> is_Some (Interleaving.store c !! p))
  /\ (forall p, Interleaving.first c = Interleaving.Finished p ->
                is_Some (Interleaving.store c !! p))
  /\ (forall p, Interleaving.second c = Interleaving.Finished p ->
                is_Some (Interleaving.store c !! p))
  /\ (forall p, Interleaving.first c = Interleaving.Writing p
                \/ Interleaving.first c = Interleaving.Finished p -> st !! p = None)
  /\ (forall p, Interleaving.second c = Interleaving.Writing p
                \/ Interleaving.second c = Interleaving.Finished p -> st !! p = None).

(** What two issuances, at every point of every schedule, have done to the
    collection [st] they started from: its records are as they were, and
    every other key is the PIN of an issuance that has finished. *)
Definition old_records_kept (st : gmap string FileMetadata)
    (c : Interleaving.Config) : Prop :=
  (forall p md, st !! p = Some md -> Interleaving.store c !! p = Some md)
  /\ (forall p, is_Some (Interleaving.store c !! p) ->
                is_Some (st !! p)
                \/ Interleaving.first c = Interleaving.Finished p
                \/ Interleaving.second c = Interleaving.Finished p).
(** ** Facts about strings and PINs *)

Lemma all_pin_chars_app (s t : string) :
  all_pin_chars (s +:+ t) = all_pin_chars s && all_pin_chars t.
Proof.
  induction s as [|c s IH]; simpl; [reflexivity|].
  rewrite IH. apply andb_assoc.
Qed.

Lemma charAt_characters (i : nat) : all_pin_chars (Js.charAt characters i) = true.
Proof.
  unfold Js.charAt, characters.
  do 36 (destruct i as [|i]; [reflexivity|]).
  reflexivity.
Qed.

Lemma generatePin_pin_chars (rnd : nat -> nat) (length pos : nat) :
  all_pin_chars (generatePin rnd pos length) = true.
Proof.
  revert pos. induction length as [|n IH]; intros pos; simpl; [reflexivity|].
  rewrite all_pin_chars_app, charAt_characters, IH. reflexivity.
Qed.

Lemma charAt_characters_length (i : nat) :
  (i < 36)%nat -> String.length (Js.charAt characters i) = 1%nat.
Proof.
  intros Hi. unfold Js.charAt, characters.
  do 36 (destruct i as [|i]; [reflexivity|]).
  lia.
Qed.

Lemma length_string_app (s t : string) :
  String.length (s +:+ t) = (String.length s + String.length t)%nat.
Proof. induction s as [|c s IH]; simpl; [reflexivity|]. now rewrite IH. Qed.

(** With draws below 36, as [Math.floor(Math.random() * 36)] gives them, a
    generated PIN has exactly the requested number of characters. *)
Lemma generatePin_length (rnd : nat -> nat) (length pos : nat) :
  (forall i, (rnd i < 36)%nat) ->
  String.length (generatePin rnd pos length) = length.
Proof.
  intros Hr. revert pos. induction length as [|n IH]; intros pos; simpl; [reflexivity|].
  rewrite length_string_app, charAt_characters_length, IH by apply Hr. reflexivity.
Qed.

Lemma pin_char_not_white (c : ascii) : pin_char c = true -> Js.is_white c = false.
Proof.
  unfold pin_char, Js.is_white. intros H.
  destruct (nat_of_ascii c) as [|n] eqn:E; [discriminate|].
  apply orb_true_iff in H.
  apply orb_false_iff; split; [apply andb_false_iff|apply Nat.eqb_neq];
    destruct H as [H|H]; apply andb_true_iff in H; destruct H as [H1 H2];
    apply Nat.leb_le in H1; apply Nat.leb_le in H2;
    try (right; apply Nat.leb_gt); lia.
Qed.

Lemma pin_char_upper (c : ascii) : pin_char c = true -> Js.upper_char c = c.
Proof.
  unfold pin_char, Js.upper_char. intros H.
  destruct ((97 <=? nat_of_ascii c)%nat && (nat_of_ascii c <=? 122)%nat) eqn:E;
    [|reflexivity].
  apply andb_true_iff in E. destruct E as [E1 E2].
  apply Nat.leb_le in E1. apply Nat.leb_le in E2.
  apply orb_true_iff in H.
  destruct H as [H|H]; apply andb_true_iff in H; destruct H as [H1 H2];
    apply Nat.leb_le in H1; apply Nat.leb_le in H2; lia.
Qed.

Lemma trimEnd_pin_chars (s : string) : all_pin_chars s = true -> Js.trimEnd s = s.
Proof.
  induction s as [|c s IH]; simpl; [reflexivity|].
  intros H. apply andb_true_iff in H. destruct H as [Hc Hs].
  rewrite (IH Hs). destruct s; [|reflexivity].
  now rewrite (pin_char_not_white c Hc).
Qed.

Lemma trim_pin_chars (s : string) : all_pin_chars s = true -> Js.trim s = s.
Proof.
  intros H. unfold Js.trim.
  assert (Js.trimStart s = s) as ->.
  { destruct s as [|c s]; simpl; [reflexivity|].
    simpl in H. apply andb_true_iff in H. destruct H as [Hc _].
    now rewrite (pin_char_not_white c Hc). }
  now apply trimEnd_pin_chars.
Qed.

Lemma toUpperCase_pin_chars (s : string) : all_pin_chars s = true -> Js.toUpperCase s = s.
Proof.
  induction s as [|c s IH]; simpl; [reflexivity|].
  intros H. apply andb_true_iff in H. destruct H as [Hc Hs].
  now rewrite (pin_char_upper c Hc), (IH Hs).
Qed.

(** The normalisation of the PIN look-up leaves a generated PIN as it is. *)
Lemma normalize_generated_pin (rnd : nat -> nat) (length pos : nat) :
  Js.toUpperCase (Js.trim (generatePin rnd pos length)) = generatePin rnd pos length.
Proof.
  rewrite trim_pin_chars, toUpperCase_pin_chars by apply generatePin_pin_chars.
  reflexivity.
Qed.

(** ** The retry loop of [generateUniquePin] *)

Lemma isPinUnique_true (env : Env) (store : gmap string FileMetadata) (n : nat) (pin : string) :
  isPinUnique env store n pin = true -> store !! pin = None.
Proof.
  unfold isPinUnique. intros H.
  destruct (negb (FILES_COLLECTION env)); [discriminate|].
  destruct (firestore_get_throws env n); [discriminate|].
  destruct (store !! pin); [discriminate|reflexivity].
Qed.

Lemma generateUniquePin_from_rejected (env : Env) (store : gmap string FileMetadata)
    (length fuel k : nat) :
  (forall j, (k <= j < k + fuel)%nat ->
             isPinUnique env store j (candidate env length j) = false) ->
  generateUniquePin_from fuel env store length k = None.
Proof.
  revert k. induction fuel as [|fuel IH]; intros k Hrej; simpl; [reflexivity|].
  rewrite Hrej by lia. apply IH. intros j Hj. apply Hrej. lia.
Qed.

Lemma generateUniquePin_from_accepted (env : Env) (store : gmap string FileMetadata)
    (length n fuel k : nat) :
  (forall j, (k <= j < k + n)%nat ->
             isPinUnique env store j (candidate env length j) = false) ->
  isPinUnique env store (k + n) (candidate env length (k + n)) = true ->
  (n < fuel)%nat ->
  generateUniquePin_from fuel env store length k = Some (candidate env length (k + n)).
Proof.
  revert fuel k. induction n as [|n IH]; intros fuel k Hrej Hacc Hfuel.
  - destruct fuel as [|fuel]; [lia|]. simpl.
    rewrite Nat.add_0_r in Hacc. rewrite Hacc. now rewrite Nat.add_0_r.
  - destruct fuel as [|fuel]; [lia|]. simpl.
    rewrite Hrej by lia.
    replace (k + S n)%nat with (S k + n)%nat in * by lia.
    apply IH; [|assumption|lia].
    intros j Hj. apply Hrej. lia.
Qed.

(** What the loop returns is one of its candidates, and the collection had
    no record under it when it was read. *)
Lemma generateUniquePin_from_Some (env : Env) (store : gmap string FileMetadata)
    (length fuel k : nat) (pin : string) :
  generateUniquePin_from fuel env store length k = Some pin ->
  exists j, pin = candidate env length j /\ store !! pin = None.
Proof.
  revert k. induction fuel as [|fuel IH]; intros k; simpl; [discriminate|].
  destruct (isPinUnique env store k (candidate env length k)) eqn:E.
  - intros [= <-]. exists k. split; [reflexivity|]. eapply isPinUnique_true, E.
  - apply IH.
Qed.

(** Once the loop has returned, more iterations return the same PIN. *)
Lemma generateUniquePin_from_more_fuel (env : Env) (store : gmap string FileMetadata)
    (length fuel fuel' k : nat) (pin : string) :
  generateUniquePin_from fuel env store length k = Some pin ->
  (fuel <= fuel')%nat ->
  generateUniquePin_from fuel' env store length k = Some pin.
Proof.
  revert fuel' k. induction fuel as [|fuel IH]; intros fuel' k; simpl; [discriminate|].
  intros H Hle. destruct fuel' as [|fuel']; [lia|]. simpl.
  destruct (isPinUnique env store k (candidate env length k)); [exact H|].
  apply (IH fuel' (S k) H). lia.
Qed.

Lemma generateUniquePin_normalized (env : Env) (store : gmap string FileMetadata)
    (fuel : nat) (pin : string) :
  generateUniquePin fuel env store = Some pin ->
  Js.toUpperCase (Js.trim pin) = pin /\ store !! pin = None.
Proof.
  intros H. apply generateUniquePin_from_Some in H as (j & -> & Hfree).
  split; [apply normalize_generated_pin|assumption].
Qed.

(** C2, as the code has it: [generateUniquePin] has no cap on its attempts
    and no failure exit.  It returns the first candidate that [isPinUnique]
    accepts, after as many attempts as that takes (candidate [k] is returned
    by every run of more than [k] iterations and by no shorter one), and when
    every candidate is rejected it has not returned after any number of
    iterations. *)
Theorem generateUniquePin_unbounded_retry (env : Env) (store : gmap string FileMetadata) :
  (forall k,
      (forall j, (j < k)%nat -> isPinUnique env store j (candidate env 6 j) = false) ->
      isPinUnique env store k (candidate env 6 k) = true ->
      forall fuel,
        generateUniquePin fuel env store =
        if (fuel <=? k)%nat then None else Some (candidate env 6 k))
  /\ ((forall j, isPinUnique env store j (candidate env 6 j) = false) ->
      forall fuel, generateUniquePin fuel env store = None).
Proof.
  split.
  - intros k Hrej Hacc fuel. unfold generateUniquePin.
    destruct (fuel <=? k)%nat eqn:E.
    + apply Nat.leb_le in E. apply generateUniquePin_from_rejected.
      intros j Hj. apply Hrej. lia.
    + apply Nat.leb_gt in E.
      apply (generateUniquePin_from_accepted env store 6 k fuel 0%nat); simpl; try assumption.
      intros j Hj. apply Hrej. lia.
  - intros Hrej fuel. apply generateUniquePin_from_rejected. intros j _. apply Hrej.
Qed.

Lemma candidate_env_A (k : nat) : candidate Sample.env_A 6 k = "AAAAAA".
Proof. reflexivity. Qed.

Lemma env_A_always_rejected (j : nat) :
  isPinUnique Sample.env_A Sample.occupied_A j (candidate Sample.env_A 6 j) = false.
Proof. rewrite candidate_env_A. reflexivity. Qed.

(** With ["ABCDEF"] and ["GHIJKL"] taken, the third candidate is returned by
    three iterations and not by two; with ["AAAAAA"] taken and every draw 0,
    a thousand iterations return nothing. *)
Lemma generateUniquePin_unbounded_retry_witness :
  let store : gmap string FileMetadata :=
    {[ "ABCDEF" := Sample.record "ABCDEF" None; "GHIJKL" := Sample.record "GHIJKL" None ]} in
  generateUniquePin 3 Sample.env store = Some "MNOPQR"
  /\ generateUniquePin 2 Sample.env store = None
  /\ generateUniquePin 1000 Sample.env_A Sample.occupied_A = None.
Proof.
  intros store.
  destruct (generateUniquePin_unbounded_retry Sample.env store) as [Hfirst _].
  destruct (generateUniquePin_unbounded_retry Sample.env_A Sample.occupied_A) as [_ Hnever].
  assert (Hrej : forall j, (j < 2)%nat ->
            isPinUnique Sample.env store j (candidate Sample.env 6 j) = false).
  { intros j Hj. destruct j as [|[|j]]; [reflexivity|reflexivity|lia]. }
  assert (Hacc : isPinUnique Sample.env store 2 (candidate Sample.env 6 2) = true)
    by reflexivity.
  split; [exact (Hfirst 2%nat Hrej Hacc 3%nat)|].
  split; [exact (Hfirst 2%nat Hrej Hacc 2%nat)|].
  exact (Hnever env_A_always_rejected 1000%nat).
Defined.

(** C2 as the specification states it fails: with every candidate taken,
    ten iterations have returned nothing, and no number of iterations makes
    the loop stop. *)
Lemma generateUniquePin_never_gives_up :
  (forall k, is_Some (Sample.occupied_A !! candidate Sample.env_A 6 k))
  /\ generateUniquePin 10 Sample.env_A Sample.occupied_A = None
  /\ ~ (exists fuel, generateUniquePin fuel Sample.env_A Sample.occupied_A <> None).
Proof.
  split; [|split].
  - intros k. rewrite candidate_env_A. eexists. reflexivity.
  - reflexivity.
  - intros [fuel H]. apply H.
    apply generateUniquePin_from_rejected. intros j _. apply env_A_always_rejected.
Qed.

(** ** Two issuances against one store *)

Module InterleavingFacts.
Import Interleaving.

Section Two.

Variables (env1 env2 : Env) (md1 md2 : string -> FileMetadata).

Lemma run_app (s1 s2 : list Who) (c : Config) :
  run env1 env2 md1 md2 (s1 ++ s2) c
  = run env1 env2 md1 md2 s2 (run env1 env2 md1 md2 s1 c).
Proof. revert c. induction s1 as [|who s1 IH]; intros c; simpl; [reflexivity|apply IH]. Qed.

Lemma issuer_step_store_grows (env : Env) (md : string -> FileMetadata)
    (i : Issuer) (st : gmap string FileMetadata) (p : string) :
  is_Some (st !! p) -> is_Some ((issuer_step env md i st).2 !! p).
Proof.
  intros Hp. destruct i as [k|pin|pin]; simpl; try assumption.
  - destruct (isPinUnique env st k (candidate env 6 k)); assumption.
  - destruct (decide (pin = p)) as [->|Hne].
    + rewrite lookup_insert_eq. eauto.
    + now rewrite lookup_insert_ne.
Qed.

Lemma step_store_grows (who : Who) (c : Config) (p : string) :
  is_Some (store c !! p) -> is_Some (store (step env1 env2 md1 md2 who c) !! p).
Proof.
  intros Hp. destruct who; unfold Interleaving.step.
  - pose proof (issuer_step_store_grows env1 md1 (first c) (store c) p Hp) as H.
    destruct (issuer_step env1 md1 (first c) (store c)); exact H.
  - pose proof (issuer_step_store_grows env2 md2 (second c) (store c) p Hp) as H.
    destruct (issuer_step env2 md2 (second c) (store c)); exact H.
Qed.

Lemma step_finished_recorded (who : Who) (c : Config) :
  finished_recorded c -> finished_recorded (step env1 env2 md1 md2 who c).
Proof.
  intros Hc p. destruct who; unfold Interleaving.step.
  - destruct (first c) as [k|pin|pin] eqn:E; simpl.
    + destruct (isPinUnique env1 (store c) k (candidate env1 6 k)); simpl; discriminate.
    + intros [= ->]. rewrite lookup_insert_eq. eauto.
    + intros [= ->]. apply Hc, E.
  - pose proof (issuer_step_store_grows env2 md2 (second c) (store c) p) as H.
    destruct (issuer_step env2 md2 (second c) (store c)) as [i st]; simpl in *.
    intros Hp. apply H, Hc, Hp.
Qed.

Lemma run_finished_recorded (s : list Who) (c : Config) :
  finished_recorded c -> finished_recorded (run env1 env2 md1 md2 s c).
Proof.
  revert c. induction s as [|who s IH]; intros c Hc; simpl; [assumption|].
  apply IH, step_finished_recorded, Hc.
Qed.

Lemma run_second_keeps_first (m : nat) (c : Config) :
  first (run env1 env2 md1 md2 (replicate m Second) c) = first c.
Proof.
  revert c. induction m as [|m IH]; intros c; simpl; [reflexivity|].
  rewrite IH. unfold Interleaving.step.
  now destruct (issuer_step env2 md2 (second c) (store c)).
Qed.

Lemma run_first_keeps_second (n : nat) (c : Config) :
  second (run env1 env2 md1 md2 (replicate n First) c) = second c.
Proof.
  revert c. induction n as [|n IH]; intros c; simpl; [reflexivity|].
  rewrite IH. unfold Interleaving.step.
  now destruct (issuer_step env1 md1 (first c) (store c)).
Qed.

Lemma step_second_avoids (p : string) (c : Config) :
  second_avoids p c -> second_avoids p (step env1 env2 md1 md2 Second c).
Proof.
  intros (Hp & Hw & Hf). unfold second_avoids, Interleaving.step.
  destruct (second c) as [k|pin|pin] eqn:E; simpl.
  - destruct (isPinUnique env2 (store c) k (candidate env2 6 k)) eqn:U; simpl.
    + split; [assumption|]. split; [|discriminate].
      intros [= Heq]. apply isPinUnique_true in U. rewrite Heq in U.
      rewrite U in Hp. now destruct Hp.
    + split; [assumption|]. split; discriminate.
  - split; [|split; [discriminate|congruence]].
    destruct (decide (pin = p)) as [->|Hne]; [congruence|].
    now rewrite lookup_insert_ne.
  - split; [assumption|]. split; [discriminate|assumption].
Qed.

Lemma run_second_avoids (p : string) (m : nat) (c : Config) :
  second_avoids p c -> second_avoids p (run env1 env2 md1 md2 (replicate m Second) c).
Proof.
  revert c. induction m as [|m IH]; intros c Hc; simpl; [assumption|].
  apply IH, step_second_avoids, Hc.
Qed.

(** The loop of an issuer is [generateUniquePin]: when that returns
    [pin], the issuer reaches [Writing pin] within as many steps. *)
Lemma issuer_follows_generateUniquePin (fuel k : nat) (c : Config) (pin : string) :
  first c = Generating k ->
  generateUniquePin_from fuel env1 (store c) 6 k = Some pin ->
  exists n, (n <= fuel)%nat
            /\ first (run env1 env2 md1 md2 (replicate n First) c) = Writing pin
            /\ store (run env1 env2 md1 md2 (replicate n First) c) = store c.
Proof.
  revert k c. induction fuel as [|fuel IH]; intros k c Hk; simpl; [discriminate|].
  destruct (isPinUnique env1 (store c) k (candidate env1 6 k)) eqn:U.
  - intros [= <-]. exists 1%nat. simpl. unfold Interleaving.step.
    rewrite Hk. simpl. rewrite U. simpl. repeat split. lia.
  - intros H.
    destruct (IH (S k) (step env1 env2 md1 md2 First c)) as (n & Hn & Hw & Hs).
    + unfold Interleaving.step. rewrite Hk. simpl. now rewrite U.
    + unfold Interleaving.step. rewrite Hk. simpl. rewrite U. simpl. exact H.
    + exists (S n). split; [lia|]. split; [exact Hw|].
      change (replicate (S n) First) with (First :: replicate n First).
      cbn [Interleaving.run]. rewrite Hs.
      unfold Interleaving.step. rewrite Hk. simpl. now rewrite U.
Qed.

End Two.

(** C1, as the code has it: an attempt is a read of the collection
    ([isPinUnique]) and the record is written by a separate, later [set].
    Two issuances that run one after the other, the second beginning after
    the first has written its record, return different PINs. *)
Theorem sequential_issuance_distinct (env1 env2 : Env) (md1 md2 : string -> FileMetadata)
    (st : gmap string FileMetadata) (n m : nat) (p1 p2 : string) :
  let c := run env1 env2 md1 md2 (replicate n First ++ replicate m Second) (start st) in
  first c = Finished p1 -> second c = Finished p2 -> p1 <> p2.
Proof.
  intros c H1 H2. subst c. rewrite run_app in H1, H2.
  set (c1 := run env1 env2 md1 md2 (replicate n First) (start st)) in *.
  rewrite run_second_keeps_first in H1.
  assert (Hrec : is_Some (store c1 !! p1)).
  { apply (run_finished_recorded env1 env2 md1 md2 (replicate n First) (start st));
      [|exact H1]. intros p. simpl. discriminate. }
  assert (Hav : second_avoids p1 c1).
  { split; [exact Hrec|]. unfold c1. rewrite run_first_keeps_second. simpl.
    split; discriminate. }
  apply (run_second_avoids env1 env2 md1 md2 p1 m) in Hav.
  destruct Hav as (_ & _ & Hf). intros ->. apply Hf, H2.
Qed.

(** Two uploads one after the other, the first drawing ["ABCDEF"] and the
    second drawing ["AAAAAA"]. *)
Lemma sequential_issuance_distinct_witness :
  let c := run Sample.env Sample.env_A (fun p => Sample.record p None)
             (fun p => Sample.record p None) [First; First; Second; Second] (start ∅) in
  first c = Finished "ABCDEF" /\ second c = Finished "AAAAAA" /\ "ABCDEF" <> "AAAAAA".
Proof.
  intros c.
  assert (H1 : first c = Finished "ABCDEF") by reflexivity.
  assert (H2 : second c = Finished "AAAAAA") by reflexivity.
  split; [exact H1|]. split; [exact H2|].
  exact (sequential_issuance_distinct Sample.env Sample.env_A _ _ ∅ 2 2
           "ABCDEF" "AAAAAA" H1 H2).
Defined.

(** C1 as the specification states it fails: two runs whose reads both
    come before their writes draw the same candidate, both find it free,
    both return it and both write it. *)
Lemma interleaved_issuance_same_pin :
  let c := run Sample.env_A Sample.env_A (fun p => Sample.record p (Some 1))
             (fun p => Sample.record p (Some 2)) [First; Second; First; Second] (start ∅) in
  first c = Finished "AAAAAA" /\ second c = Finished "AAAAAA"
  /\ store c !! "AAAAAA" = Some (Sample.record "AAAAAA" (Some 2)).
Proof. repeat split. Qed.

End InterleavingFacts.

(** ** Basic facts about the handler *)

Lemma currentState_set_state (chat : Z) (s : State) (w : World) :
  currentState (set_state chat s w) chat = s.
Proof. unfold currentState, set_state. simpl. now rewrite lookup_insert_eq. Qed.

Lemma currentState_delete_state (chat : Z) (w : World) :
  currentState (delete_state chat w) chat = NONE.
Proof. unfold currentState, delete_state. simpl. now rewrite lookup_delete_eq. Qed.

Lemma emitted_app (w w' : World) (new : list Effect) :
  log w' = log w ++ new -> emitted w w' = new.
Proof. intros H. unfold emitted. rewrite H. now rewrite drop_app_length. Qed.

(** [plain_text] and [command_text] split the texts that are not empty. *)
Lemma plain_text_Some (msg : Msg) (t : string) :
  plain_text msg = Some t <->
  text msg = Some t /\ t <> "" /\ Js.startsWith "/" t = false.
Proof.
  unfold plain_text. split.
  - destruct (text msg) as [s|]; [|discriminate].
    destruct s as [|c s]; cbn [Js.truthy Js.startsWith andb negb]; [discriminate|].
    destruct (Ascii.eqb "/" c) eqn:E; cbn [Js.startsWith andb negb]; [done|].
    intros [= <-]. cbn [Js.startsWith]. rewrite E. repeat split. discriminate.
  - intros (-> & Hne & Hs). destruct t as [|c t]; [congruence|].
    cbn [Js.truthy andb]. now rewrite Hs.
Qed.

Lemma command_text_Some (msg : Msg) (t : string) :
  command_text msg = Some t <-> text msg = Some t /\ Js.startsWith "/" t = true.
Proof.
  unfold command_text. split.
  - destruct (text msg) as [s|]; [|discriminate].
    destruct s as [|c s]; cbn [Js.truthy Js.startsWith andb negb]; [discriminate|].
    destruct (Ascii.eqb "/" c) eqn:E; cbn [Js.startsWith andb negb]; [|done].
    intros [= <-]. cbn [Js.startsWith]. now rewrite E.
  - intros (-> & Hs). destruct t as [|c t]; [discriminate|].
    cbn [Js.truthy andb]. now rewrite Hs.
Qed.

Lemma plain_text_not_command (msg : Msg) (t : string) :
  plain_text msg = Some t -> command_text msg = None.
Proof.
  unfold plain_text, command_text. destruct (text msg) as [s|]; [|reflexivity].
  destruct (Js.truthy s); cbn [andb]; [|reflexivity].
  destruct (Js.startsWith "/" s); cbn [negb]; [done|reflexivity].
Qed.

Lemma command_text_not_plain (msg : Msg) (t : string) :
  command_text msg = Some t -> plain_text msg = None.
Proof.
  unfold plain_text, command_text. destruct (text msg) as [s|]; [|reflexivity].
  destruct (Js.truthy s); cbn [andb]; [|reflexivity].
  destruct (Js.startsWith "/" s); cbn [negb]; [reflexivity|done].
Qed.

(** A text that matches [^\d{10,}$] is not empty and is no command. *)
Lemma is_phone_number_plain (msg : Msg) (t : string) :
  text msg = Some t -> is_phone_number t = true -> plain_text msg = Some t.
Proof.
  intros Ht Hp. apply plain_text_Some. split; [assumption|].
  unfold is_phone_number in Hp. apply andb_true_iff in Hp. destruct Hp as [Hl Hd].
  destruct t as [|c t]; [discriminate|]. split; [discriminate|].
  cbn [Js.all_digits] in Hd. apply andb_true_iff in Hd. destruct Hd as [Hc _].
  cbn [Js.startsWith].
  destruct (Ascii.eqb "/" c) eqn:E; [|reflexivity].
  apply Ascii.eqb_eq in E. subst c. discriminate.
Qed.

(** The command block without a command does nothing in a state other
    than [NONE]. *)
Lemma commands_no_command (env : Env) (s : State) (msg : Msg) (w : World) :
  command_text msg = None -> s <> NONE -> commands env s msg w = w.
Proof.
  intros Hc Hs. unfold commands. rewrite Hc. destruct s; congruence.
Qed.

Lemma commands_command (env : Env) (s : State) (msg : Msg) (w : World) (t : string) :
  command_text msg = Some t ->
  commands env s msg w = on_command env (chat_id msg) (Js.split_space_0 t) w.
Proof. intros Hc. unfold commands. now rewrite Hc. Qed.

(** What a command does to the session, the pending number, the collection
    and the log. *)
Lemma on_command_cancel (env : Env) (chat : Z) (w : World) :
  on_command env chat "/cancel" w
  = say chat R_cancelled (delete_number chat (delete_state chat w)).
Proof. reflexivity. Qed.

Lemma on_command_number (env : Env) (chat : Z) (command : string) (w : World) :
  command <> "/cancel" -> userNumbers (on_command env chat command w) = userNumbers w.
Proof.
  intros Hne. unfold on_command.
  repeat match goal with
         | |- context [String.eqb command ?c] =>
             destruct (String.eqb_spec command c); [try congruence|]
         | |- context [negb ?b] => destruct b; simpl
         end; reflexivity.
Qed.

Lemma on_command_files (env : Env) (chat : Z) (command : string) (w : World) :
  files (on_command env chat command w) = files w.
Proof.
  unfold on_command.
  repeat match goal with
         | |- context [String.eqb command ?c] => destruct (String.eqb command c)
         | |- context [negb ?b] => destruct b; simpl
         end; reflexivity.
Qed.

Lemma on_command_log (env : Env) (chat : Z) (command : string) (w : World) :
  exists r, log (on_command env chat command w) = log w ++ [sendMessage chat r]
            /\ is_upload_too_large (sendMessage chat r) = false.
Proof.
  unfold on_command.
  repeat match goal with
         | |- context [String.eqb command ?c] => destruct (String.eqb command c)
         | |- context [negb ?b] => destruct b; simpl
         end; eexists; split; reflexivity.
Qed.

Lemma commands_files (env : Env) (s : State) (msg : Msg) (w : World) :
  files (commands env s msg w) = files w.
Proof.
  unfold commands. destruct (command_text msg); [apply on_command_files|].
  destruct s; try reflexivity.
  destruct (text msg) as [t|]; [destruct (Js.truthy t)|]; try destruct (has_attachment msg);
    reflexivity.
Qed.

Lemma commands_log (env : Env) (s : State) (msg : Msg) (w : World) :
  exists new, log (commands env s msg w) = log w ++ new
              /\ forallb (fun e => negb (is_upload_too_large e)) new = true.
Proof.
  unfold commands. destruct (command_text msg).
  - destruct (on_command_log env (chat_id msg) (Js.split_space_0 s0) w) as (r & -> & Hr).
    eexists. split; [reflexivity|]. simpl. simpl in Hr. now rewrite Hr.
  - destruct s; try (exists []; split; [now rewrite app_nil_r|reflexivity]).
    destruct (text msg) as [t|]; [destruct (Js.truthy t)|]; try destruct (has_attachment msg);
      eexists; split; reflexivity.
Qed.

(** ** The number is there whenever the message is asked for *)

Create HintDb ready discriminated.

Lemma number_ready_emit (chat : Z) (e : Effect) (w : World) :
  number_ready chat w -> number_ready chat (emit e w).
Proof. auto. Qed.

Lemma number_ready_say (chat c : Z) (r : Reply) (w : World) :
  number_ready chat w -> number_ready chat (say c r w).
Proof. auto. Qed.

Lemma number_ready_store_file (chat : Z) (pin : string) (md : FileMetadata) (w : World) :
  number_ready chat w -> number_ready chat (store_file pin md w).
Proof. auto. Qed.

Lemma number_ready_delete_state (chat c : Z) (w : World) :
  number_ready chat w -> number_ready chat (delete_state c w).
Proof.
  unfold number_ready, delete_state. simpl. intros H.
  destruct (decide (c = chat)) as [->|Hne].
  - rewrite lookup_delete_eq. discriminate.
  - now rewrite lookup_delete_ne.
Qed.

Lemma number_ready_delete_both (chat c : Z) (w : World) :
  number_ready chat w -> number_ready chat (delete_number c (delete_state c w)).
Proof.
  unfold number_ready, delete_state, delete_number. simpl. intros H.
  destruct (decide (c = chat)) as [->|Hne].
  - rewrite lookup_delete_eq. discriminate.
  - now rewrite !lookup_delete_ne.
Qed.

Lemma number_ready_set_state (chat c : Z) (s : State) (w : World) :
  s <> SENDMSG_ASK_MESSAGE -> number_ready chat w -> number_ready chat (set_state c s w).
Proof.
  unfold number_ready, set_state. simpl. intros Hs H.
  destruct (decide (c = chat)) as [->|Hne].
  - rewrite lookup_insert_eq. congruence.
  - now rewrite lookup_insert_ne.
Qed.

Lemma number_ready_set_both (chat c : Z) (n : string) (w : World) :
  is_phone_number n = true -> number_ready chat w ->
  number_ready chat (set_number c n (set_state c SENDMSG_ASK_MESSAGE w)).
Proof.
  unfold number_ready, set_state, set_number. simpl. intros Hn H.
  destruct (decide (c = chat)) as [->|Hne].
  - rewrite !lookup_insert_eq. eauto.
  - now rewrite !lookup_insert_ne.
Qed.

#[local] Hint Resolve number_ready_emit number_ready_say number_ready_store_file
  number_ready_delete_state number_ready_delete_both number_ready_set_state
  number_ready_set_both : ready.

Lemma downloadFileFromUrl_number_ready (chat c : Z) (env : Env) (url : string) (w : World) :
  number_ready chat w -> number_ready chat (downloadFileFromUrl env url c w).
Proof.
  intros H. unfold downloadFileFromUrl.
  repeat case_match; auto 10 with ready.
Qed.

#[local] Hint Resolve downloadFileFromUrl_number_ready : ready.

Lemma on_command_number_ready (chat c : Z) (env : Env) (command : string) (w : World) :
  number_ready chat w -> number_ready chat (on_command env c command w).
Proof.
  intros H. unfold on_command.
  repeat case_match; auto with ready.
Qed.

Lemma commands_number_ready (chat : Z) (env : Env) (s : State) (msg : Msg) (w : World) :
  number_ready chat w -> number_ready chat (commands env s msg w).
Proof.
  intros H. unfold commands.
  repeat case_match; auto using on_command_number_ready with ready.
Qed.

Lemma conversation_number_ready (chat : Z) (fuel : nat) (env : Env) (s : State)
    (msg : Msg) (w w' : World) (flow : Flow) :
  number_ready chat w ->
  conversation fuel env s msg w = Some (w', flow) ->
  number_ready chat w'.
Proof.
  intros H. unfold conversation.
  destruct s; intros Hc.
  - now inversion Hc; subst.
  - unfold on_SENDMSG_ASK_NUMBER in Hc.
    destruct (plain_text msg) as [t|]; [|inversion Hc; subst; auto with ready].
    destruct (is_phone_number t) eqn:E; simpl in Hc; inversion Hc; subst; auto with ready.
  - unfold on_SENDMSG_ASK_MESSAGE in Hc.
    repeat case_match; inversion Hc; subst; auto 10 with ready.
  - unfold on_YT_ASK_URL in Hc. inversion Hc; subst; auto with ready.
  - unfold on_UPLOAD_WAIT_FILE in Hc.
    repeat case_match; inversion Hc; subst; auto 10 with ready.
  - unfold on_GETFILE_ASK_PIN in Hc.
    repeat case_match; inversion Hc; subst; auto 10 with ready.
  - unfold on_AI_ASK_QUERY in Hc.
    repeat case_match; inversion Hc; subst; auto 10 with ready.
  - unfold on_DOWNLOAD_ASK_URL in Hc.
    repeat case_match; inversion Hc; subst; auto 10 with ready.
Qed.

Lemma on_message_number_ready (chat : Z) (fuel : nat) (env : Env) (msg : Msg) (w w' : World) :
  number_ready chat w -> on_message fuel env msg w = Some w' -> number_ready chat w'.
Proof.
  intros H. unfold on_message.
  destruct (conversation fuel env (currentState w (chat_id msg)) msg w)
    as [[w1 flow]|] eqn:E; [|discriminate].
  apply (conversation_number_ready chat) in E; [|exact H].
  destruct flow; intros [= <-]; [apply commands_number_ready|]; assumption.
Qed.

(** Every world the bot reaches has the number ready in every chat that is
    asked for its message. *)
Lemma reachable_number_ready (w : World) (chat : Z) :
  Reachable w -> number_ready chat w.
Proof.
  induction 1 as [store|w _ IH|fuel env msg w w' _ IH Hstep].
  - unfold number_ready, fresh. simpl. rewrite lookup_empty. discriminate.
  - unfold number_ready, cold_start. simpl. rewrite lookup_empty. discriminate.
  - eapply on_message_number_ready; eassumption.
Qed.

Lemma is_phone_number_truthy (n : string) : is_phone_number n = true -> Js.truthy n = true.
Proof.
  unfold is_phone_number. intros H. apply andb_true_iff in H. destruct H as [Hl _].
  destruct n; [discriminate|reflexivity].
Qed.

Lemma currentState_Some (w : World) (chat : Z) (s : State) :
  s <> NONE -> currentState w chat = s -> userStates w !! chat = Some s.
Proof.
  unfold currentState. destruct (userStates w !! chat); simpl; congruence.
Qed.

(** ** The send-message flow *)

(** C9, as the code has it.  In state [SENDMSG_ASK_NUMBER], a text that
    matches [^\d{10,}$] is stored as the pending number and the state
    becomes [SENDMSG_ASK_MESSAGE]; a text that does not match and does not
    start with ['/'] (the empty text too) is answered with the prompt for a
    valid number and the session is left as it was; a text that starts with
    ['/'] is answered with that prompt and then handled as a command. *)
Theorem ask_number_answer (fuel : nat) (env : Env) (msg : Msg) (w : World) (t : string) :
  currentState w (chat_id msg) = SENDMSG_ASK_NUMBER ->
  text msg = Some t ->
  let chat := chat_id msg in
  (is_phone_number t = true ->
     exists w', on_message fuel env msg w = Some w'
       /\ currentState w' chat = SENDMSG_ASK_MESSAGE
       /\ pendingNumber w' chat = Some t
       /\ emitted w w' = [sendMessage chat R_ask_message])
  /\ (is_phone_number t = false -> Js.startsWith "/" t = false ->
     exists w' r, on_message fuel env msg w = Some w'
       /\ (r = R_invalid_number_example \/ r = R_invalid_number)
       /\ w' = say chat r w
       /\ currentState w' chat = SENDMSG_ASK_NUMBER
       /\ pendingNumber w' chat = pendingNumber w chat)
  /\ (Js.startsWith "/" t = true ->
     is_phone_number t = false
     /\ on_message fuel env msg w
        = Some (on_command env chat (Js.split_space_0 t) (say chat R_invalid_number w))).
Proof.
  intros Hs Ht chat. subst chat. unfold on_message. rewrite Hs.
  cbn [conversation]. unfold on_SENDMSG_ASK_NUMBER.
  split; [|split].
  - intros Hp. rewrite (is_phone_number_plain msg t Ht Hp), Hp. cbn [negb].
    rewrite commands_no_command
      by (try discriminate; eapply plain_text_not_command, is_phone_number_plain; eassumption).
    eexists. split; [reflexivity|].
    split; [|split].
    + unfold currentState. simpl. now rewrite lookup_insert_eq.
    + unfold pendingNumber. simpl. now rewrite lookup_insert_eq.
    + now apply emitted_app.
  - intros Hp Hc. destruct t as [|c t'].
    + assert (plain_text msg = None) as -> by (unfold plain_text; now rewrite Ht).
      assert (command_text msg = None) as Hcmd by (unfold command_text; now rewrite Ht).
      rewrite commands_no_command by (try discriminate; assumption).
      exists (say (chat_id msg) R_invalid_number w), R_invalid_number.
      repeat split; auto.
    + assert (plain_text msg = Some (String c t')) as ->.
      { apply plain_text_Some. repeat split; try assumption. discriminate. }
      rewrite Hp. cbn [negb].
      exists (say (chat_id msg) R_invalid_number_example w), R_invalid_number_example.
      repeat split; auto.
  - intros Hc.
    assert (command_text msg = Some t) as Hcmd by (apply command_text_Some; auto).
    rewrite (command_text_not_plain msg t Hcmd).
    rewrite (commands_command env _ msg _ t Hcmd).
    split; [|reflexivity].
    destruct (is_phone_number t) eqn:Hp; [|reflexivity].
    apply (is_phone_number_plain msg t Ht) in Hp.
    rewrite (command_text_not_plain msg t Hcmd) in Hp. discriminate.
Qed.

Lemma ask_number_answer_witness :
  let w := Sample.asked_for_number in
  (exists w', on_message 0 Sample.env (Sample.text_message 1 "94712345678") w = Some w'
     /\ currentState w' 1 = SENDMSG_ASK_MESSAGE
     /\ pendingNumber w' 1 = Some "94712345678"
     /\ emitted w w' = [sendMessage 1 R_ask_message])
  /\ (exists w' r, on_message 0 Sample.env (Sample.text_message 1 "12345") w = Some w'
     /\ (r = R_invalid_number_example \/ r = R_invalid_number)
     /\ w' = say 1 r w
     /\ currentState w' 1 = SENDMSG_ASK_NUMBER
     /\ pendingNumber w' 1 = pendingNumber w 1)
  /\ on_message 0 Sample.env (Sample.text_message 1 "/start") w
     = Some (on_command Sample.env 1 "/start" (say 1 R_invalid_number w)).
Proof.
  intros w.
  assert (Hs : currentState w 1 = SENDMSG_ASK_NUMBER) by reflexivity.
  split; [|split].
  - apply (ask_number_answer 0 Sample.env (Sample.text_message 1 "94712345678") w
             "94712345678" Hs eq_refl); reflexivity.
  - apply (ask_number_answer 0 Sample.env (Sample.text_message 1 "12345") w
             "12345" Hs eq_refl); reflexivity.
  - apply (ask_number_answer 0 Sample.env (Sample.text_message 1 "/start") w
             "/start" Hs eq_refl); reflexivity.
Defined.

(** C9 as the specification states it fails on a command: in state
    [SENDMSG_ASK_NUMBER] the text ["/cancel"] does not match, the prompt is
    sent, and the state does not stay: the command block ends the flow. *)
Lemma ask_number_command_changes_state :
  is_phone_number "/cancel" = false
  /\ currentState Sample.asked_for_number 1 = SENDMSG_ASK_NUMBER
  /\ exists w', on_message 0 Sample.env (Sample.text_message 1 "/cancel")
                  Sample.asked_for_number = Some w'
       /\ emitted Sample.asked_for_number w'
          = [sendMessage 1 R_invalid_number; sendMessage 1 R_cancelled]
       /\ currentState w' 1 = NONE
       /\ currentState w' 1 <> SENDMSG_ASK_NUMBER.
Proof.
  split; [reflexivity|]. split; [reflexivity|].
  eexists. split; [reflexivity|]. split; [reflexivity|]. split; [reflexivity|].
  discriminate.
Qed.

(** C8.  In state [SENDMSG_ASK_MESSAGE] of a world the bot has reached, a
    text that is not empty and is no command is posted to the relay together
    with the pending number, the user is told whether [sendMessageViaApi]
    returned [true], and the state and the pending number are deleted
    whatever it returned. *)
Theorem ask_message_relays (fuel : nat) (env : Env) (msg : Msg) (w : World) (t : string) :
  Reachable w ->
  currentState w (chat_id msg) = SENDMSG_ASK_MESSAGE ->
  plain_text msg = Some t ->
  let chat := chat_id msg in
  exists number w',
    pendingNumber w chat = Some number
    /\ on_message fuel env msg w = Some w'
    /\ emitted w w'
       = [sendMessage chat R_sending_message;
          relayPost number t;
          sendMessage chat (if sendMessageViaApi env number t
                            then R_message_sent else R_message_failed)]
    /\ currentState w' chat = NONE
    /\ pendingNumber w' chat = None.
Proof.
  intros Hreach Hs Ht chat. subst chat.
  destruct (reachable_number_ready w (chat_id msg) Hreach) as (number & Hn & Hvalid).
  { apply currentState_Some; [discriminate|exact Hs]. }
  exists number.
  unfold on_message. rewrite Hs.
  cbn [conversation]. unfold on_SENDMSG_ASK_MESSAGE.
  rewrite Ht. unfold pendingNumber. rewrite Hn.
  rewrite (is_phone_number_truthy number Hvalid).
  assert (Js.truthy t = true) as ->.
  { apply plain_text_Some in Ht as (_ & Hne & _). destruct t; [congruence|reflexivity]. }
  cbn [andb].
  rewrite commands_no_command by (try discriminate; eapply plain_text_not_command; eassumption).
  eexists. split; [reflexivity|]. split; [reflexivity|].
  split; [|split].
  - apply emitted_app. destruct (sendMessageViaApi env number t); simpl;
      rewrite <- !app_assoc; reflexivity.
  - unfold currentState. simpl. now rewrite lookup_delete_eq.
  - simpl. now rewrite lookup_delete_eq.
Qed.

Lemma number_given_reachable : Reachable Sample.number_given.
Proof.
  apply (reach_message 0 Sample.env (Sample.text_message 1 "94712345678")
           (Sample.after 0 Sample.env (Sample.text_message 1 "/sendmsg") (fresh ∅)));
    [|reflexivity].
  apply (reach_message 0 Sample.env (Sample.text_message 1 "/sendmsg") (fresh ∅));
    [apply reach_fresh|reflexivity].
Qed.

Lemma ask_message_relays_witness :
  let w := Sample.number_given in
  exists number w',
    pendingNumber w 1 = Some number
    /\ on_message 0 Sample.env (Sample.text_message 1 "hello") w = Some w'
    /\ emitted w w'
       = [sendMessage 1 R_sending_message;
          relayPost number "hello";
          sendMessage 1 (if sendMessageViaApi Sample.env number "hello"
                         then R_message_sent else R_message_failed)]
    /\ currentState w' 1 = NONE
    /\ pendingNumber w' 1 = None.
Proof.
  exact (ask_message_relays 0 Sample.env (Sample.text_message 1 "hello")
           Sample.number_given "hello" number_given_reachable eq_refl eq_refl).
Defined.

(** [sendMessageViaApi] answers [true] for a 2xx response that says
    ["success"], and [false] for everything else. *)
Lemma sendMessageViaApi_true (env : Env) (number message : string) :
  sendMessageViaApi env number message = true <->
  relay_response env number message = RelayHttp true (Some "success").
Proof.
  unfold sendMessageViaApi.
  destruct (relay_response env number message) as [|[|] [status|]];
    split; try discriminate; try (intros [= ?]; subst; reflexivity).
  intros H. apply String.eqb_eq in H. now subst.
Qed.

(** ** Commands sent in the middle of a flow *)

(** In the two states of the send-message flow a command is answered with
    the prompt of the state and then handled by the command block. *)
Lemma sendmsg_flow_command (fuel : nat) (env : Env) (msg : Msg) (w : World) (t : string) :
  currentState w (chat_id msg) = SENDMSG_ASK_NUMBER
  \/ currentState w (chat_id msg) = SENDMSG_ASK_MESSAGE ->
  command_text msg = Some t ->
  exists r,
    on_message fuel env msg w
    = Some (on_command env (chat_id msg) (Js.split_space_0 t) (say (chat_id msg) r w)).
Proof.
  intros Hs Hc. unfold on_message.
  destruct Hs as [Hs|Hs]; rewrite Hs; cbn [conversation];
    [unfold on_SENDMSG_ASK_NUMBER|unfold on_SENDMSG_ASK_MESSAGE];
    rewrite (command_text_not_plain msg t Hc), (commands_command env _ msg _ t Hc);
    eexists; reflexivity.
Qed.

(** C6, as the code has it.  The pending number is deleted when the
    send-message flow ends by its completion (a text that is no command, in
    state [SENDMSG_ASK_MESSAGE]) and when it ends by [/cancel]; any other
    command sent in the flow leaves the stored number as it is. *)
Theorem leaving_sendmsg_flow (fuel : nat) (env : Env) (msg : Msg) (w : World) :
  let chat := chat_id msg in
  currentState w chat = SENDMSG_ASK_NUMBER \/ currentState w chat = SENDMSG_ASK_MESSAGE ->
  exists w', on_message fuel env msg w = Some w'
    /\ (currentState w chat = SENDMSG_ASK_MESSAGE -> is_Some (plain_text msg) ->
          currentState w' chat = NONE /\ pendingNumber w' chat = None)
    /\ (forall t, command_text msg = Some t -> Js.split_space_0 t = "/cancel" ->
          currentState w' chat = NONE /\ pendingNumber w' chat = None)
    /\ (forall t, command_text msg = Some t -> Js.split_space_0 t <> "/cancel" ->
          pendingNumber w' chat = pendingNumber w chat).
Proof.
  intros chat Hs. subst chat.
  destruct (command_text msg) as [t|] eqn:Hc.
  - destruct (sendmsg_flow_command fuel env msg w t Hs Hc) as (r & ->).
    eexists. split; [reflexivity|]. split; [|split].
    + intros _ [t' Hp]. rewrite (command_text_not_plain msg t Hc) in Hp. discriminate.
    + intros t' [= <-] ->. rewrite on_command_cancel. split.
      * unfold currentState. simpl. now rewrite lookup_delete_eq.
      * unfold pendingNumber. simpl. now rewrite lookup_delete_eq.
    + intros t' [= <-] Hne. unfold pendingNumber. now rewrite on_command_number.
  - unfold on_message.
    destruct Hs as [Hs|Hs]; rewrite Hs; cbn [conversation].
    + unfold on_SENDMSG_ASK_NUMBER.
      destruct (plain_text msg) as [t|]; [destruct (negb (is_phone_number t))|];
        try rewrite commands_no_command by (try discriminate; assumption);
        (eexists; split; [reflexivity|]);
        (split; [intros; discriminate|split; intros; discriminate]).
    + unfold on_SENDMSG_ASK_MESSAGE.
      destruct (plain_text msg) as [t|];
        rewrite commands_no_command by (try discriminate; assumption);
        (eexists; split; [reflexivity|]);
        (split; [|split; intros; discriminate]).
      * intros _ _. split.
        -- unfold currentState. simpl. now rewrite lookup_delete_eq.
        -- unfold pendingNumber. simpl. now rewrite lookup_delete_eq.
      * intros _ [t' Hp]. discriminate.
Qed.

Lemma leaving_sendmsg_flow_witness :
  let w := Sample.asked_for_message in
  (exists w', on_message 0 Sample.env (Sample.text_message 1 "hello") w = Some w'
     /\ currentState w' 1 = NONE /\ pendingNumber w' 1 = None)
  /\ (exists w', on_message 0 Sample.env (Sample.text_message 1 "/cancel") w = Some w'
     /\ currentState w' 1 = NONE /\ pendingNumber w' 1 = None)
  /\ (exists w', on_message 0 Sample.env (Sample.text_message 1 "/sendmsg") w = Some w'
     /\ pendingNumber w' 1 = pendingNumber w 1).
Proof.
  intros w.
  assert (Hs : currentState w 1 = SENDMSG_ASK_NUMBER \/ currentState w 1 = SENDMSG_ASK_MESSAGE)
    by (right; reflexivity).
  split; [|split].
  - destruct (leaving_sendmsg_flow 0 Sample.env (Sample.text_message 1 "hello") w Hs)
      as (w' & Hrun & Hdone & _).
    exists w'. split; [exact Hrun|]. apply Hdone; [reflexivity|]. eexists; reflexivity.
  - destruct (leaving_sendmsg_flow 0 Sample.env (Sample.text_message 1 "/cancel") w Hs)
      as (w' & Hrun & _ & Hcancel & _).
    exists w'. split; [exact Hrun|]. apply (Hcancel "/cancel"); reflexivity.
  - destruct (leaving_sendmsg_flow 0 Sample.env (Sample.text_message 1 "/sendmsg") w Hs)
      as (w' & Hrun & _ & _ & Hother).
    exists w'. split; [exact Hrun|]. apply (Hother "/sendmsg"); [reflexivity|discriminate].
Defined.

(** C6 as the specification states it fails: [/download_url] sent while the
    message is asked for moves the session to [DOWNLOAD_ASK_URL] and the
    number stays in the map; so does a repeated [/sendmsg]. *)
Lemma command_override_keeps_number :
  currentState Sample.asked_for_message 1 = SENDMSG_ASK_MESSAGE
  /\ pendingNumber Sample.asked_for_message 1 = Some "94712345678"
  /\ (exists w', on_message 0 Sample.env (Sample.text_message 1 "/download_url")
                   Sample.asked_for_message = Some w'
        /\ currentState w' 1 = DOWNLOAD_ASK_URL
        /\ pendingNumber w' 1 = Some "94712345678")
  /\ (exists w', on_message 0 Sample.env (Sample.text_message 1 "/sendmsg")
                   Sample.asked_for_message = Some w'
        /\ currentState w' 1 = SENDMSG_ASK_NUMBER
        /\ pendingNumber w' 1 = Some "94712345678").
Proof.
  split; [reflexivity|]. split; [reflexivity|].
  split; eexists; (split; [reflexivity|]); split; reflexivity.
Qed.

(** X25.  The pending number that a command override leaves behind is never
    used: the state [SENDMSG_ASK_MESSAGE] is entered only by line 266-267,
    which stores the number just given. *)
Lemma entering_ask_message_sets_number (fuel : nat) (env : Env) (msg : Msg) (w w' : World) :
  currentState w (chat_id msg) <> SENDMSG_ASK_MESSAGE ->
  on_message fuel env msg w = Some w' ->
  currentState w' (chat_id msg) = SENDMSG_ASK_MESSAGE ->
  exists t, text msg = Some t /\ pendingNumber w' (chat_id msg) = Some t.
Proof.
  intros Hs Hrun Hs'.
  assert (Hcmd : forall w0, currentState (commands env (currentState w (chat_id msg)) msg w0)
                              (chat_id msg) = SENDMSG_ASK_MESSAGE ->
                            currentState w0 (chat_id msg) = SENDMSG_ASK_MESSAGE
                            /\ userNumbers (commands env (currentState w (chat_id msg)) msg w0)
                               = userNumbers w0).
  { intros w0. unfold commands, on_command.
    repeat case_match; simpl; try (intros H; split; [exact H|reflexivity]);
      unfold currentState; simpl; rewrite ?lookup_insert_eq, ?lookup_delete_eq;
      simpl; done. }
  unfold on_message in Hrun.
  destruct (currentState w (chat_id msg)) eqn:E; cbn [conversation] in Hrun;
    try congruence.
  - injection Hrun as <-. apply Hcmd in Hs' as [Hs' _]. congruence.
  - unfold on_SENDMSG_ASK_NUMBER in Hrun.
    destruct (plain_text msg) as [t|] eqn:Hp.
    + destruct (negb (is_phone_number t)); injection Hrun as <-.
      * unfold currentState in Hs', E. simpl in Hs'. congruence.
      * apply Hcmd in Hs' as [_ Hn]. exists t. split; [now apply plain_text_Some in Hp|].
        unfold pendingNumber. rewrite Hn. simpl. now rewrite lookup_insert_eq.
    + injection Hrun as <-. apply Hcmd in Hs' as [Hs' _].
      unfold currentState in Hs', E. simpl in Hs'. congruence.
  - unfold on_YT_ASK_URL in Hrun. injection Hrun as <-. apply Hcmd in Hs' as [Hs' _].
    rewrite currentState_delete_state in Hs'. discriminate.
  - unfold on_UPLOAD_WAIT_FILE in Hrun.
    repeat case_match; simplify_eq; try apply Hcmd in Hs' as [Hs' _];
      try (rewrite currentState_delete_state in Hs'; discriminate);
      unfold currentState in Hs', E; simpl in Hs'; congruence.
  - unfold on_GETFILE_ASK_PIN in Hrun.
    repeat case_match; simplify_eq; try apply Hcmd in Hs' as [Hs' _];
      try (rewrite currentState_delete_state in Hs'; discriminate);
      unfold currentState in Hs', E; simpl in Hs'; congruence.
  - unfold on_AI_ASK_QUERY in Hrun.
    repeat case_match; simplify_eq; try apply Hcmd in Hs' as [Hs' _];
      try (rewrite currentState_delete_state in Hs'; discriminate);
      unfold currentState in Hs', E; simpl in Hs'; congruence.
  - unfold on_DOWNLOAD_ASK_URL in Hrun.
    repeat case_match; simplify_eq; try apply Hcmd in Hs' as [Hs' _];
      try (rewrite currentState_delete_state in Hs'; discriminate);
      unfold currentState in Hs', E; simpl in Hs'; congruence.
Qed.

(** C3 on the code, at the input where it fails: while a file is waited
    for, [/cancel] carries no attachment, so the upload branch sends its
    prompt and returns at line 330; the command block is not reached and
    the session stays in [UPLOAD_WAIT_FILE]. *)
Theorem cancel_ignored_while_waiting_for_file (fuel : nat) (env : Env) (chat : Z) (w : World) :
  let w0 := set_state chat UPLOAD_WAIT_FILE w in
  currentState w0 chat = UPLOAD_WAIT_FILE
  /\ on_message fuel env (Sample.text_message chat "/cancel") w0
     = Some (say chat R_send_valid_file w0)
  /\ currentState (say chat R_send_valid_file w0) chat = UPLOAD_WAIT_FILE
  /\ pendingNumber (say chat R_send_valid_file w0) chat = pendingNumber w chat.
Proof.
  intros w0. split; [apply currentState_set_state|].
  split; [|split; [apply currentState_set_state|reflexivity]].
  unfold on_message. cbn [chat_id Sample.text_message].
  unfold w0. rewrite currentState_set_state. reflexivity.
Qed.

(** X26.  From the other question states [/cancel] does end the flow and delete
    the pending number, and a second [/cancel] changes neither. *)
Lemma cancel_from_other_states (fuel : nat) (env : Env) (chat : Z) (w : World) :
  currentState w chat <> UPLOAD_WAIT_FILE ->
  exists w', on_message fuel env (Sample.text_message chat "/cancel") w = Some w'
    /\ currentState w' chat = NONE
    /\ pendingNumber w' chat = None
    /\ exists w'', on_message fuel env (Sample.text_message chat "/cancel") w' = Some w''
         /\ userStates w'' = userStates w' /\ userNumbers w'' = userNumbers w'.
Proof.
  intros Hs.
  assert (Hfirst : exists w1, on_message fuel env (Sample.text_message chat "/cancel") w
                     = Some (say chat R_cancelled (delete_number chat (delete_state chat w1)))).
  { unfold on_message. cbn [chat_id Sample.text_message].
    destruct (currentState w chat); try congruence; eexists; reflexivity. }
  destruct Hfirst as (w1 & ->). eexists. split; [reflexivity|].
  split; [unfold currentState; simpl; now rewrite lookup_delete_eq|].
  split; [unfold pendingNumber; simpl; now rewrite lookup_delete_eq|].
  unfold on_message. cbn [chat_id Sample.text_message].
  assert (currentState (say chat R_cancelled (delete_number chat (delete_state chat w1))) chat
          = NONE) as -> by (unfold currentState; simpl; now rewrite lookup_delete_eq).
  eexists. split; [reflexivity|]. simpl.
  rewrite !delete_delete_eq. split; reflexivity.
Qed.

(** ** Upload and PIN look-up *)

Lemma TELEGRAM_FILE_LIMIT_value : TELEGRAM_FILE_LIMIT = 52428800.
Proof. reflexivity. Qed.

(** The test of line 334 holds exactly for a declared size that is not zero
    and is above the limit; zero is below the limit, so that is: declared
    and above the limit. *)
Lemma declared_oversized_true (x : option Z) :
  declared_oversized x = true <-> exists n, x = Some n /\ n <> 0 /\ TELEGRAM_FILE_LIMIT < n.
Proof.
  unfold declared_oversized. split.
  - destruct x as [n|]; [|discriminate]. intros H.
    apply andb_true_iff in H. destruct H as [H0 Hl].
    exists n. split; [reflexivity|]. split.
    + intros ->. discriminate.
    + now apply Z.ltb_lt.
  - intros (n & -> & H0 & Hl). apply andb_true_iff. split.
    + apply negb_true_iff. now apply Z.eqb_neq.
    + now apply Z.ltb_lt.
Qed.

Lemma declared_oversized_within (n : Z) :
  n <= TELEGRAM_FILE_LIMIT -> declared_oversized (Some n) = false.
Proof.
  intros H. unfold declared_oversized.
  apply andb_false_iff. right. apply Z.ltb_ge. exact H.
Qed.

Lemma declared_oversized_above (n : Z) :
  TELEGRAM_FILE_LIMIT < n -> declared_oversized (Some n) = true.
Proof.
  intros H. apply declared_oversized_true. exists n.
  rewrite TELEGRAM_FILE_LIMIT_value in *. repeat split; lia.
Qed.

(** The upload branch on an attachment that passes the size test, with the
    collection there, a PIN returned and the record written. *)
Lemma upload_accepts (fuel : nat) (env : Env) (msg : Msg) (w : World)
    (fileObj : FileObj) (fileName P : string) :
  currentState w (chat_id msg) = UPLOAD_WAIT_FILE ->
  select_file msg = Picked fileObj fileName ->
  declared_oversized (file_size fileObj) = false ->
  FILES_COLLECTION env = true ->
  generateUniquePin fuel env (files w) = Some P ->
  firestore_set_throws env (fileMetadata msg fileObj fileName P) = false ->
  exists w',
    on_message fuel env msg w = Some w'
    /\ files w' = <[P := fileMetadata msg fileObj fileName P]> (files w)
    /\ sendMessage (chat_id msg) (R_upload_ok P) ∈ emitted w w'
    /\ existsb is_upload_too_large (emitted w w') = false.
Proof.
  intros Hs Hsel Hsize Hdb Hpin Hset. unfold on_message. rewrite Hs.
  cbn [conversation]. unfold on_UPLOAD_WAIT_FILE.
  rewrite Hsel, Hsize, Hdb. cbn [negb files say emit].
  rewrite Hpin, Hset.
  eexists. split; [reflexivity|]. split; [now rewrite commands_files|].
  match goal with |- context [commands ?e ?s ?m ?w1] =>
    destruct (commands_log e s m w1) as (new & Hlog & Hnew) end.
  simpl in Hlog. rewrite <- !app_assoc in Hlog. simpl in Hlog.
  rewrite (emitted_app _ _ _ Hlog). split.
  - apply elem_of_cons. right. apply elem_of_cons. now left.
  - simpl. apply not_true_iff_false. intros H.
    apply existsb_exists in H as (e & Hin & He).
    rewrite forallb_forall in Hnew. apply Hnew in Hin. now rewrite He in Hin.
Qed.

(** The upload branch on an attachment whose declared size is above the
    limit: the size is reported, the flow ends, nothing else happens. *)
Lemma upload_rejects (fuel : nat) (env : Env) (msg : Msg) (w : World)
    (fileObj : FileObj) (fileName : string) (n : Z) :
  currentState w (chat_id msg) = UPLOAD_WAIT_FILE ->
  select_file msg = Picked fileObj fileName ->
  file_size fileObj = Some n ->
  TELEGRAM_FILE_LIMIT < n ->
  on_message fuel env msg w
  = Some (delete_state (chat_id msg) (say (chat_id msg) (R_upload_too_large n) w)).
Proof.
  intros Hs Hsel Hsize Hn. unfold on_message. rewrite Hs.
  cbn [conversation]. unfold on_UPLOAD_WAIT_FILE.
  rewrite Hsel, Hsize, (declared_oversized_above n Hn). reflexivity.
Qed.

(** Whatever the outside does, the reply of line 337 is sent only when the
    test of line 334 holds. *)
Lemma upload_too_large_only_if_declared (fuel : nat) (env : Env) (msg : Msg) (w w' : World)
    (fileObj : FileObj) (fileName : string) :
  currentState w (chat_id msg) = UPLOAD_WAIT_FILE ->
  select_file msg = Picked fileObj fileName ->
  on_message fuel env msg w = Some w' ->
  existsb is_upload_too_large (emitted w w') = declared_oversized (file_size fileObj).
Proof.
  intros Hs Hsel. unfold on_message. rewrite Hs.
  cbn [conversation]. unfold on_UPLOAD_WAIT_FILE. rewrite Hsel.
  destruct (declared_oversized (file_size fileObj)) eqn:Hsize.
  - intros [= <-]. erewrite emitted_app by reflexivity. reflexivity.
  - destruct (FILES_COLLECTION env); cbn [negb].
    + cbn [files say emit].
      destruct (generateUniquePin fuel env (files w)) as [P|]; [|discriminate].
      intros [= <-].
      match goal with |- context [commands ?e ?s ?m ?w1] =>
        destruct (commands_log e s m w1) as (new & Hlog & Hnew) end.
      assert (Hnone : existsb is_upload_too_large new = false).
      { apply not_true_iff_false. intros H.
        apply existsb_exists in H as (e & Hin & He).
        rewrite forallb_forall in Hnew. apply Hnew in Hin. now rewrite He in Hin. }
      destruct (firestore_set_throws env _); simpl in Hlog;
        rewrite <- !app_assoc in Hlog; simpl in Hlog;
        rewrite (emitted_app _ _ _ Hlog); simpl; exact Hnone.
    + intros [= <-]. erewrite emitted_app by reflexivity. reflexivity.
Qed.

(** The look-up branch on a text whose normal form is the key of a record
    within the limit: the stored file reference is sent back. *)
Lemma resolve_sends (fuel : nat) (env : Env) (msg : Msg) (w : World)
    (t : string) (md : FileMetadata) :
  currentState w (chat_id msg) = GETFILE_ASK_PIN ->
  plain_text msg = Some t ->
  FILES_COLLECTION env = true ->
  firestore_get_throws env 0 = false ->
  files w !! Js.toUpperCase (Js.trim t) = Some md ->
  Js.truthy (md_file_id md) = true ->
  or_zero (md_file_size md) <= TELEGRAM_FILE_LIMIT ->
  sendDocument_throws env = false ->
  exists w',
    on_message fuel env msg w = Some w'
    /\ emitted w w'
       = [sendMessage (chat_id msg) (R_looking_up (Js.toUpperCase (Js.trim t)));
          sendMessage (chat_id msg) R_downloading_stored;
          sendDocument (chat_id msg) (ByFileId (md_file_id md))
            (or_string (Some (md_file_name md)) "downloaded_file");
          sendMessage (chat_id msg) R_file_sent]
    /\ currentState w' (chat_id msg) = NONE.
Proof.
  intros Hs Ht Hdb Hget Hmd Hid Hsize Hsend. unfold on_message. rewrite Hs.
  cbn [conversation]. unfold on_GETFILE_ASK_PIN.
  rewrite Ht, Hdb, Hget. cbn [negb files say emit]. rewrite Hmd, Hid. cbn [negb].
  apply Z.ltb_ge in Hsize. rewrite Hsize, Hsend.
  rewrite commands_no_command by (try discriminate; eapply plain_text_not_command; eassumption).
  eexists. split; [reflexivity|]. split.
  - apply emitted_app. simpl. rewrite <- !app_assoc. reflexivity.
  - apply currentState_delete_state.
Qed.

(** The look-up branch on a record above the limit: the size is reported
    and nothing is sent. *)
Lemma resolve_oversized (fuel : nat) (env : Env) (msg : Msg) (w : World)
    (t : string) (md : FileMetadata) :
  currentState w (chat_id msg) = GETFILE_ASK_PIN ->
  plain_text msg = Some t ->
  FILES_COLLECTION env = true ->
  firestore_get_throws env 0 = false ->
  files w !! Js.toUpperCase (Js.trim t) = Some md ->
  Js.truthy (md_file_id md) = true ->
  TELEGRAM_FILE_LIMIT < or_zero (md_file_size md) ->
  exists w',
    on_message fuel env msg w = Some w'
    /\ emitted w w'
       = [sendMessage (chat_id msg) (R_looking_up (Js.toUpperCase (Js.trim t)));
          sendMessage (chat_id msg) (R_stored_too_large (or_zero (md_file_size md)))]
    /\ currentState w' (chat_id msg) = NONE.
Proof.
  intros Hs Ht Hdb Hget Hmd Hid Hsize. unfold on_message. rewrite Hs.
  cbn [conversation]. unfold on_GETFILE_ASK_PIN.
  rewrite Ht, Hdb, Hget. cbn [negb files say emit]. rewrite Hmd, Hid. cbn [negb].
  apply Z.ltb_lt in Hsize. rewrite Hsize.
  eexists. split; [reflexivity|]. split.
  - apply emitted_app. simpl. rewrite <- !app_assoc. reflexivity.
  - apply currentState_delete_state.
Qed.

(** C4.  Round trip: an upload of an attachment with declared size [S]
    within the limit and file reference [file_id fileObj] that succeeds
    (the collection is there, [generateUniquePin] returns [P], the write
    does not throw) replies [P]; [P] is its own normal form; and a later
    look-up of any text whose trimmed, upper-cased form is [P], while the
    record is still there, finds a record with that size and that file
    reference, and sends the referenced file back. *)
Theorem bind_resolve_roundtrip
    (fuel : nat) (env : Env) (msg : Msg) (w w1 : World)
    (fileObj : FileObj) (fileName P : string) (S : Z)
    (fuel' : nat) (env' : Env) (msg' : Msg) (w2 : World) (t : string) :
  currentState w (chat_id msg) = UPLOAD_WAIT_FILE ->
  select_file msg = Picked fileObj fileName ->
  file_size fileObj = Some S ->
  S <= TELEGRAM_FILE_LIMIT ->
  FILES_COLLECTION env = true ->
  generateUniquePin fuel env (files w) = Some P ->
  firestore_set_throws env (fileMetadata msg fileObj fileName P) = false ->
  on_message fuel env msg w = Some w1 ->
  files w2 !! P = files w1 !! P ->
  currentState w2 (chat_id msg') = GETFILE_ASK_PIN ->
  plain_text msg' = Some t ->
  Js.toUpperCase (Js.trim t) = P ->
  FILES_COLLECTION env' = true ->
  firestore_get_throws env' 0 = false ->
  sendDocument_throws env' = false ->
  file_id fileObj <> "" ->
  sendMessage (chat_id msg) (R_upload_ok P) ∈ emitted w w1
  /\ Js.toUpperCase (Js.trim P) = P
  /\ (exists md, files w2 !! Js.toUpperCase (Js.trim t) = Some md
                 /\ md_file_size md = Some S
                 /\ md_file_id md = file_id fileObj)
  /\ (exists w3 name,
        on_message fuel' env' msg' w2 = Some w3
        /\ emitted w2 w3
           = [sendMessage (chat_id msg') (R_looking_up P);
              sendMessage (chat_id msg') R_downloading_stored;
              sendDocument (chat_id msg') (ByFileId (file_id fileObj)) name;
              sendMessage (chat_id msg') R_file_sent]
        /\ currentState w3 (chat_id msg') = NONE).
Proof.
  intros Hs Hsel Hsize HS Hdb Hpin Hset Hrun Hkept Hs' Ht Hnorm Hdb' Hget Hsend Hid.
  destruct (upload_accepts fuel env msg w fileObj fileName P Hs Hsel) as (w1' & Hrun' & Hfiles & Hreply & _);
    try assumption.
  { rewrite Hsize. now apply declared_oversized_within. }
  rewrite Hrun in Hrun'. injection Hrun' as <-.
  assert (Hmd : files w2 !! Js.toUpperCase (Js.trim t)
                = Some (fileMetadata msg fileObj fileName P)).
  { rewrite Hnorm, Hkept, Hfiles. apply lookup_insert_eq. }
  split; [exact Hreply|].
  split; [eapply generateUniquePin_normalized, Hpin|].
  split; [eexists; split; [exact Hmd|]; split; [exact Hsize|reflexivity]|].
  destruct (resolve_sends fuel' env' msg' w2 t _ Hs' Ht Hdb' Hget Hmd)
    as (w3 & Hrun3 & Hlog & Hend); try assumption.
  - simpl. destruct (file_id fileObj); [congruence|reflexivity].
  - simpl. rewrite Hsize. exact HS.
  - exists w3. eexists. rewrite Hnorm in Hlog. split; [exact Hrun3|].
    split; [exact Hlog|exact Hend].
Qed.

(** A ten-byte document is uploaded in chat 1 and gets ["ABCDEF"]; chat 2
    asks for [" abcdef "] and is sent the file. *)
Lemma bind_resolve_roundtrip_witness :
  let w := Sample.waiting_for_file in
  let msg := Sample.document_message 1 (Some 10) in
  let w1 := Sample.after 1 Sample.env msg w in
  let w2 := set_state 2 GETFILE_ASK_PIN w1 in
  let msg' := Sample.text_message 2 " abcdef " in
  sendMessage 1 (R_upload_ok "ABCDEF") ∈ emitted w w1
  /\ Js.toUpperCase (Js.trim "ABCDEF") = "ABCDEF"
  /\ (exists md, files w2 !! Js.toUpperCase (Js.trim " abcdef ") = Some md
                 /\ md_file_size md = Some 10
                 /\ md_file_id md = "BQACAgQAAx0")
  /\ (exists w3 name,
        on_message 0 Sample.env msg' w2 = Some w3
        /\ emitted w2 w3
           = [sendMessage 2 (R_looking_up "ABCDEF");
              sendMessage 2 R_downloading_stored;
              sendDocument 2 (ByFileId "BQACAgQAAx0") name;
              sendMessage 2 R_file_sent]
        /\ currentState w3 2 = NONE).
Proof.
  intros w msg w1 w2 msg'.
  apply (bind_resolve_roundtrip 1 Sample.env msg w w1 (Sample.attachment (Some 10))
           "report.pdf" "ABCDEF" 10 0 Sample.env msg' w2 " abcdef ");
    try reflexivity.
  - rewrite TELEGRAM_FILE_LIMIT_value. lia.
  - discriminate.
Defined.

(** C5.  The size boundary.  On upload an attachment of exactly
    50 * 1024 * 1024 bytes is stored under its PIN (when the collection is
    there, a PIN is returned and the write does not throw), and one of one
    byte more is refused with the size reported, nothing stored and the flow
    ended, whatever the outside does.  On look-up a stored record of exactly
    the limit is sent (when the read and the send do not throw), and one of
    one byte more is reported as too large and not sent. *)
Theorem size_boundary :
  (forall fuel env msg w fileObj fileName P,
      currentState w (chat_id msg) = UPLOAD_WAIT_FILE ->
      select_file msg = Picked fileObj fileName ->
      file_size fileObj = Some (50 * 1024 * 1024) ->
      FILES_COLLECTION env = true ->
      generateUniquePin fuel env (files w) = Some P ->
      firestore_set_throws env (fileMetadata msg fileObj fileName P) = false ->
      exists w', on_message fuel env msg w = Some w'
        /\ files w' !! P = Some (fileMetadata msg fileObj fileName P)
        /\ sendMessage (chat_id msg) (R_upload_ok P) ∈ emitted w w'
        /\ existsb is_upload_too_large (emitted w w') = false)
  /\ (forall fuel env msg w fileObj fileName,
      currentState w (chat_id msg) = UPLOAD_WAIT_FILE ->
      select_file msg = Picked fileObj fileName ->
      file_size fileObj = Some (50 * 1024 * 1024 + 1) ->
      exists w', on_message fuel env msg w = Some w'
        /\ emitted w w' = [sendMessage (chat_id msg) (R_upload_too_large (50 * 1024 * 1024 + 1))]
        /\ files w' = files w
        /\ currentState w' (chat_id msg) = NONE)
  /\ (forall fuel env msg w t md,
      currentState w (chat_id msg) = GETFILE_ASK_PIN ->
      plain_text msg = Some t ->
      FILES_COLLECTION env = true ->
      firestore_get_throws env 0 = false ->
      files w !! Js.toUpperCase (Js.trim t) = Some md ->
      md_file_id md <> "" ->
      sendDocument_throws env = false ->
      md_file_size md = Some (50 * 1024 * 1024) ->
      exists w' name, on_message fuel env msg w = Some w'
        /\ emitted w w'
           = [sendMessage (chat_id msg) (R_looking_up (Js.toUpperCase (Js.trim t)));
              sendMessage (chat_id msg) R_downloading_stored;
              sendDocument (chat_id msg) (ByFileId (md_file_id md)) name;
              sendMessage (chat_id msg) R_file_sent])
  /\ (forall fuel env msg w t md,
      currentState w (chat_id msg) = GETFILE_ASK_PIN ->
      plain_text msg = Some t ->
      FILES_COLLECTION env = true ->
      firestore_get_throws env 0 = false ->
      files w !! Js.toUpperCase (Js.trim t) = Some md ->
      md_file_id md <> "" ->
      md_file_size md = Some (50 * 1024 * 1024 + 1) ->
      exists w', on_message fuel env msg w = Some w'
        /\ emitted w w'
           = [sendMessage (chat_id msg) (R_looking_up (Js.toUpperCase (Js.trim t)));
              sendMessage (chat_id msg) (R_stored_too_large (50 * 1024 * 1024 + 1))]
        /\ existsb is_sendDocument (emitted w w') = false).
Proof.
  assert (Htruthy : forall s, s <> "" -> Js.truthy s = true).
  { intros s Hs. destruct s; [congruence|reflexivity]. }
  split; [|split; [|split]].
  - intros fuel env msg w fileObj fileName P Hs Hsel Hsize Hdb Hpin Hset.
    destruct (upload_accepts fuel env msg w fileObj fileName P Hs Hsel)
      as (w' & Hrun & Hfiles & Hreply & Hnone); try assumption.
    { rewrite Hsize. now apply declared_oversized_within. }
    exists w'. split; [exact Hrun|]. split; [|split; assumption].
    rewrite Hfiles. apply lookup_insert_eq.
  - intros fuel env msg w fileObj fileName Hs Hsel Hsize.
    rewrite (upload_rejects fuel env msg w fileObj fileName _ Hs Hsel Hsize)
      by (rewrite TELEGRAM_FILE_LIMIT_value; lia).
    eexists. split; [reflexivity|]. split; [now apply emitted_app|].
    split; [reflexivity|apply currentState_delete_state].
  - intros fuel env msg w t md Hs Ht Hdb Hget Hmd Hid Hsend Hsize.
    destruct (resolve_sends fuel env msg w t md Hs Ht Hdb Hget Hmd)
      as (w' & Hrun & Hlog & _); auto.
    { rewrite Hsize. simpl. rewrite TELEGRAM_FILE_LIMIT_value. lia. }
    exists w'. eexists. split; [exact Hrun|exact Hlog].
  - intros fuel env msg w t md Hs Ht Hdb Hget Hmd Hid Hsize.
    destruct (resolve_oversized fuel env msg w t md Hs Ht Hdb Hget Hmd)
      as (w' & Hrun & Hlog & _); auto.
    { rewrite Hsize. simpl. rewrite TELEGRAM_FILE_LIMIT_value. lia. }
    exists w'. split; [exact Hrun|]. rewrite Hlog, Hsize. split; reflexivity.
Qed.

Lemma size_boundary_witness :
  let limit := 50 * 1024 * 1024 in
  (exists w', on_message 1 Sample.env (Sample.document_message 1 (Some limit))
                Sample.waiting_for_file = Some w'
     /\ sendMessage 1 (R_upload_ok "ABCDEF") ∈ emitted Sample.waiting_for_file w')
  /\ (exists w', on_message 1 Sample.env (Sample.document_message 1 (Some (limit + 1)))
                   Sample.waiting_for_file = Some w'
     /\ emitted Sample.waiting_for_file w' = [sendMessage 1 (R_upload_too_large (limit + 1))])
  /\ (exists w', on_message 0 Sample.env (Sample.text_message 2 "ABCDEF")
                   (Sample.asked_for_pin (Some limit)) = Some w'
     /\ existsb is_sendDocument (emitted (Sample.asked_for_pin (Some limit)) w') = true)
  /\ (exists w', on_message 0 Sample.env (Sample.text_message 2 "ABCDEF")
                   (Sample.asked_for_pin (Some (limit + 1))) = Some w'
     /\ existsb is_sendDocument (emitted (Sample.asked_for_pin (Some (limit + 1))) w') = false).
Proof.
  intros limit.
  destruct size_boundary as (Hup & Hover & Hsend & Hlarge).
  split; [|split; [|split]].
  - destruct (Hup 1%nat Sample.env (Sample.document_message 1 (Some limit))
                Sample.waiting_for_file (Sample.attachment (Some limit)) "report.pdf" "ABCDEF")
      as (w' & Hrun & _ & Hreply & _); try reflexivity.
    exists w'. split; assumption.
  - destruct (Hover 1%nat Sample.env (Sample.document_message 1 (Some (limit + 1)))
                Sample.waiting_for_file (Sample.attachment (Some (limit + 1))) "report.pdf")
      as (w' & Hrun & Hlog & _); try reflexivity.
    exists w'. split; assumption.
  - destruct (Hsend 0%nat Sample.env (Sample.text_message 2 "ABCDEF")
                (Sample.asked_for_pin (Some limit)) "ABCDEF"
                (Sample.record "ABCDEF" (Some limit)))
      as (w' & name & Hrun & Hlog); try reflexivity; try discriminate.
    exists w'. split; [exact Hrun|]. rewrite Hlog. reflexivity.
  - destruct (Hlarge 0%nat Sample.env (Sample.text_message 2 "ABCDEF")
                (Sample.asked_for_pin (Some (limit + 1))) "ABCDEF"
                (Sample.record "ABCDEF" (Some (limit + 1))))
      as (w' & Hrun & _ & Hnone); try reflexivity; try discriminate.
    exists w'. split; assumption.
Defined.

(** The upload branch when the write of the record throws: the error is
    reported and the collection is as it was. *)
Lemma upload_write_throws (fuel : nat) (env : Env) (msg : Msg) (w : World)
    (fileObj : FileObj) (fileName P : string) :
  currentState w (chat_id msg) = UPLOAD_WAIT_FILE ->
  select_file msg = Picked fileObj fileName ->
  declared_oversized (file_size fileObj) = false ->
  FILES_COLLECTION env = true ->
  generateUniquePin fuel env (files w) = Some P ->
  firestore_set_throws env (fileMetadata msg fileObj fileName P) = true ->
  exists w',
    on_message fuel env msg w = Some w'
    /\ files w' = files w
    /\ sendMessage (chat_id msg) R_upload_error ∈ emitted w w'
    /\ existsb is_upload_too_large (emitted w w') = false.
Proof.
  intros Hs Hsel Hsize Hdb Hpin Hset. unfold on_message. rewrite Hs.
  cbn [conversation]. unfold on_UPLOAD_WAIT_FILE.
  rewrite Hsel, Hsize, Hdb. cbn [negb files say emit].
  rewrite Hpin, Hset.
  eexists. split; [reflexivity|]. split; [now rewrite commands_files|].
  match goal with |- context [commands ?e ?s ?m ?w1] =>
    destruct (commands_log e s m w1) as (new & Hlog & Hnew) end.
  simpl in Hlog. rewrite <- !app_assoc in Hlog. simpl in Hlog.
  rewrite (emitted_app _ _ _ Hlog). split.
  - apply elem_of_cons. right. apply elem_of_cons. now left.
  - simpl. apply not_true_iff_false. intros H.
    apply existsb_exists in H as (e & Hin & He).
    rewrite forallb_forall in Hnew. apply Hnew in Hin. now rewrite He in Hin.
Qed.

(** C10 on the code, at the input where it fails: a document whose
    [file_size] is absent, sent while a file is waited for, with every
    service working.  The size test of line 334 lets it pass, a PIN is
    drawn, and the record of lines 355-363 has [file_size: undefined]; the
    client refuses to write it, so the user gets the upload error and no
    record exists under the PIN.  A document of size zero, the other case
    that is not truthy, is stored with its size. *)
Theorem upload_without_size_is_not_bound :
  let w := Sample.waiting_for_file in
  rejects_undefined Sample2.env_firestore
  /\ declared_oversized (file_size (Sample.attachment None)) = false
  /\ generateUniquePin 1 Sample2.env_firestore (files w) = Some "ABCDEF"
  /\ (exists w', on_message 1 Sample2.env_firestore (Sample.document_message 1 None) w = Some w'
        /\ emitted w w' = [sendMessage 1 R_storing_file; sendMessage 1 R_upload_error]
        /\ files w' !! "ABCDEF" = None
        /\ files w' = files w
        /\ currentState w' 1 = NONE)
  /\ (exists w', on_message 1 Sample2.env_firestore (Sample.document_message 1 (Some 0)) w
                 = Some w'
        /\ emitted w w' = [sendMessage 1 R_storing_file; sendMessage 1 (R_upload_ok "ABCDEF")]
        /\ files w' !! "ABCDEF" = Some (Sample.record "ABCDEF" (Some 0))).
Proof.
  intros w. split.
  { intros md Hmd. simpl. now rewrite Hmd. }
  split; [reflexivity|]. split; [reflexivity|].
  split; eexists; (split; [reflexivity|]); repeat split.
Qed.

(** X30.  The size test of the upload branch.  An attachment whose declared
    [file_size] is there, is not zero and is above 50 * 1024 * 1024 is
    refused: the run returns with the size reported as its only effect, the
    state deleted and nothing stored, whatever the outside does; and in no
    other case is the "too large" reply sent.  A size of zero is stored as
    declared (when the collection is there, a PIN is returned and the write
    does not throw).  An absent size passes the test too, but with a client
    that refuses undefined fields the write throws: the upload error is
    reported and nothing is stored. *)
Theorem upload_size_check (fuel : nat) (env : Env) (msg : Msg) (w : World)
    (fileObj : FileObj) (fileName : string) :
  currentState w (chat_id msg) = UPLOAD_WAIT_FILE ->
  select_file msg = Picked fileObj fileName ->
  (forall n, file_size fileObj = Some n -> n <> 0 -> 50 * 1024 * 1024 < n ->
     on_message fuel env msg w
     = Some (delete_state (chat_id msg) (say (chat_id msg) (R_upload_too_large n) w)))
  /\ (forall w', on_message fuel env msg w = Some w' ->
       (existsb is_upload_too_large (emitted w w') = true <->
        exists n, file_size fileObj = Some n /\ n <> 0 /\ 50 * 1024 * 1024 < n))
  /\ (file_size fileObj = Some 0 ->
      forall P,
        FILES_COLLECTION env = true ->
        generateUniquePin fuel env (files w) = Some P ->
        firestore_set_throws env (fileMetadata msg fileObj fileName P) = false ->
        exists w' md,
          on_message fuel env msg w = Some w'
          /\ sendMessage (chat_id msg) (R_upload_ok P) ∈ emitted w w'
          /\ files w' !! P = Some md
          /\ md_file_size md = Some 0
          /\ md_file_id md = file_id fileObj)
  /\ (file_size fileObj = None ->
      rejects_undefined env ->
      forall P,
        FILES_COLLECTION env = true ->
        generateUniquePin fuel env (files w) = Some P ->
        exists w',
          on_message fuel env msg w = Some w'
          /\ files w' = files w
          /\ sendMessage (chat_id msg) R_upload_error ∈ emitted w w'
          /\ existsb is_upload_too_large (emitted w w') = false).
Proof.
  intros Hs Hsel. split; [|split; [|split]].
  - intros n Hsize _ Hn.
    exact (upload_rejects fuel env msg w fileObj fileName n Hs Hsel Hsize Hn).
  - intros w' Hrun.
    rewrite (upload_too_large_only_if_declared fuel env msg w w' fileObj fileName Hs Hsel Hrun).
    apply declared_oversized_true.
  - intros Hsize P Hdb Hpin Hset.
    destruct (upload_accepts fuel env msg w fileObj fileName P Hs Hsel)
      as (w' & Hrun & Hfiles & Hreply & Hnone); try assumption.
    { now rewrite Hsize. }
    exists w', (fileMetadata msg fileObj fileName P).
    split; [exact Hrun|]. split; [exact Hreply|].
    split; [rewrite Hfiles; apply lookup_insert_eq|]. split; [exact Hsize|reflexivity].
  - intros Hsize Hclient P Hdb Hpin.
    apply (upload_write_throws fuel env msg w fileObj fileName P Hs Hsel); try assumption.
    + now rewrite Hsize.
    + apply Hclient. exact Hsize.
Qed.

Lemma upload_size_check_witness :
  let w := Sample.waiting_for_file in
  on_message 0 Sample2.env_down (Sample.document_message 1 (Some 60000000)) w
  = Some (delete_state 1 (say 1 (R_upload_too_large 60000000) w))
  /\ (exists w' md,
        on_message 1 Sample2.env_firestore (Sample.document_message 1 (Some 0)) w = Some w'
        /\ files w' !! "ABCDEF" = Some md
        /\ md_file_size md = Some 0)
  /\ (exists w',
        on_message 1 Sample2.env_firestore (Sample.document_message 1 None) w = Some w'
        /\ files w' = files w
        /\ sendMessage 1 R_upload_error ∈ emitted w w'
        /\ existsb is_upload_too_large (emitted w w') = false).
Proof.
  intros w. split; [|split].
  - destruct (upload_size_check 0 Sample2.env_down
                (Sample.document_message 1 (Some 60000000)) w
                (Sample.attachment (Some 60000000)) "report.pdf" eq_refl eq_refl) as (H & _).
    apply (H 60000000); [reflexivity|lia|lia].
  - destruct (upload_size_check 1 Sample2.env_firestore (Sample.document_message 1 (Some 0)) w
                (Sample.attachment (Some 0)) "report.pdf" eq_refl eq_refl) as (_ & _ & H & _).
    destruct (H eq_refl "ABCDEF" eq_refl eq_refl eq_refl)
      as (w' & md & Hrun & _ & Hmd & Hsz & _).
    exists w', md. repeat split; assumption.
  - destruct (upload_size_check 1 Sample2.env_firestore (Sample.document_message 1 None) w
                (Sample.attachment None) "report.pdf" eq_refl eq_refl) as (_ & _ & _ & H).
    apply (H eq_refl) with (P := "ABCDEF"); try reflexivity.
    intros md Hmd. simpl. now rewrite Hmd.
Defined.

(** ** Download by URL *)

(** X28.  Whatever the answer to [fetch(url)] is, [downloadFileFromUrl] sends no
    document: a failed fetch is reported by the [catch] block, and after a
    good answer line 203 calls [fs.createWriteStream], which the object
    bound to [fs] does not have. *)
Lemma downloadFileFromUrl_sends_no_document (env : Env) (url : string) (chat : Z) (w : World) :
  exists message,
    emitted w (downloadFileFromUrl env url chat w)
    = [sendMessage chat R_url_downloading; urlFetch url;
       sendMessage chat (R_url_error message)].
Proof.
  unfold downloadFileFromUrl.
  destruct (url_response env url) as [message|[|] filename size]; simpl fs; cbn [negb];
    eexists; apply emitted_app; simpl; rewrite <- !app_assoc; reflexivity.
Qed.

(** X27.  In state [DOWNLOAD_ASK_URL] a text that starts with [http://] or
    [https://] is fetched once and the flow ends; any other text that is no
    command gets the prompt again and the state stays. *)
Lemma ask_url_answer (fuel : nat) (env : Env) (msg : Msg) (w : World) (t : string) :
  currentState w (chat_id msg) = DOWNLOAD_ASK_URL ->
  plain_text msg = Some t ->
  exists w', on_message fuel env msg w = Some w'
    /\ if Js.startsWith "http://" t || Js.startsWith "https://" t
       then w' = delete_state (chat_id msg) (downloadFileFromUrl env t (chat_id msg) w)
            /\ currentState w' (chat_id msg) = NONE
       else w' = say (chat_id msg) R_invalid_url w
            /\ currentState w' (chat_id msg) = DOWNLOAD_ASK_URL.
Proof.
  intros Hs Ht. unfold on_message. rewrite Hs.
  cbn [conversation]. unfold on_DOWNLOAD_ASK_URL.
  pose proof (plain_text_not_command msg t Ht) as Hc.
  apply plain_text_Some in Ht as (Ht & Hne & _). rewrite Ht.
  assert (Js.truthy t = true) as -> by (destruct t; [congruence|reflexivity]).
  cbn [andb].
  destruct (Js.startsWith "http://" t || Js.startsWith "https://" t);
    rewrite commands_no_command by (try discriminate; assumption);
    eexists; (split; [reflexivity|]); split; try reflexivity.
  - apply currentState_delete_state.
  - exact Hs.
Qed.

(** C7 on the code, at the input where it fails: the chat was asked for a
    URL, the text is an [https://] URL, the fetch answers 200 with a body of
    five bytes.  The file is not sent: the user gets the error text of the
    [TypeError] raised at line 203, no document goes out, and the flow
    ends. *)
Theorem download_url_sends_nothing :
  let url := "https://example.com/a.txt" in
  url_response Sample.env url = UrlHttp true "a.txt" 5
  /\ currentState Sample.asked_for_url 1 = DOWNLOAD_ASK_URL
  /\ exists w', on_message 0 Sample.env (Sample.text_message 1 url) Sample.asked_for_url = Some w'
       /\ emitted Sample.asked_for_url w'
          = [sendMessage 1 R_url_downloading; urlFetch url;
             sendMessage 1 (R_url_error "fs.createWriteStream is not a function")]
       /\ existsb is_sendDocument (emitted Sample.asked_for_url w') = false
       /\ currentState w' 1 = NONE.
Proof.
  split; [reflexivity|]. split; [reflexivity|].
  eexists. split; [reflexivity|]. repeat split.
Qed.

(** ** More on the PIN registry *)

Lemma charAt_characters_index (i : nat) :
  (i < 36)%nat ->
  exists c, Js.charAt characters i = String c EmptyString /\ pin_index c = i.
Proof.
  intros Hi. unfold Js.charAt, characters.
  do 36 (destruct i as [|i]; [eexists; split; reflexivity|]).
  lia.
Qed.

(** X1.  [generatePin(length)] returns exactly [length] characters, all of
    them upper-case letters or digits, when every draw is below 36 (as
    [Math.floor(Math.random() * 36)] is). *)
Theorem generatePin_shape (rnd : nat -> nat) (pos length : nat) :
  (forall i, (rnd i < 36)%nat) ->
  String.length (generatePin rnd pos length) = length
  /\ all_pin_chars (generatePin rnd pos length) = true.
Proof.
  intros Hr. split; [now apply generatePin_length|apply generatePin_pin_chars].
Qed.

Lemma generatePin_shape_witness :
  String.length (generatePin (fun n => (7 * n) mod 36)%nat 0 6) = 6%nat
  /\ all_pin_chars (generatePin (fun n => (7 * n) mod 36)%nat 0 6) = true.
Proof.
  apply (generatePin_shape (fun n => (7 * n) mod 36)%nat 0 6).
  intros i. apply Nat.mod_upper_bound. lia.
Defined.

(** X2.  Different draws give different PINs: two PINs of the same length
    made from draws below 36 are equal only when the draws are equal at
    every position. *)
Theorem generatePin_injective (rnd1 rnd2 : nat -> nat) (pos length : nat) :
  (forall i, (rnd1 i < 36)%nat) ->
  (forall i, (rnd2 i < 36)%nat) ->
  generatePin rnd1 pos length = generatePin rnd2 pos length ->
  forall i, (i < length)%nat -> rnd1 (pos + i)%nat = rnd2 (pos + i)%nat.
Proof.
  intros H1 H2. revert pos. induction length as [|n IH]; intros pos Heq i Hi; [lia|].
  simpl in Heq.
  destruct (charAt_characters_index (rnd1 pos) (H1 pos)) as (c1 & E1 & I1).
  destruct (charAt_characters_index (rnd2 pos) (H2 pos)) as (c2 & E2 & I2).
  rewrite E1, E2 in Heq. simpl in Heq. injection Heq as Hc Hrest.
  destruct i as [|i].
  - rewrite Nat.add_0_r. rewrite <- I1, <- I2. now rewrite Hc.
  - replace (pos + S i)%nat with (S pos + i)%nat by lia.
    apply IH; [exact Hrest|lia].
Qed.

Lemma generatePin_injective_witness :
  generatePin (fun n => Nat.min n 35) 0 6 = generatePin (fun n => n mod 36)%nat 0 6
  /\ Nat.min (0 + 5) 35 = ((0 + 5) mod 36)%nat.
Proof.
  split; [reflexivity|].
  apply (generatePin_injective (fun n => Nat.min n 35) (fun n => n mod 36)%nat 0 6).
  - intros i. lia.
  - intros i. apply Nat.mod_upper_bound. lia.
  - reflexivity.
  - lia.
Defined.

Lemma isPinUnique_true_inv (env : Env) (store : gmap string FileMetadata) (n : nat) (pin : string) :
  isPinUnique env store n pin = true ->
  FILES_COLLECTION env = true /\ firestore_get_throws env n = false /\ store !! pin = None.
Proof.
  unfold isPinUnique. intros H.
  destruct (FILES_COLLECTION env); [|discriminate].
  destruct (firestore_get_throws env n); [discriminate|].
  destruct (store !! pin); [discriminate|]. repeat split.
Qed.

Lemma generateUniquePin_from_returns (env : Env) (store : gmap string FileMetadata)
    (length fuel k : nat) (pin : string) :
  generateUniquePin_from fuel env store length k = Some pin ->
  exists n, (n < fuel)%nat
    /\ pin = candidate env length (k + n)
    /\ isPinUnique env store (k + n) pin = true
    /\ forall j, (k <= j < k + n)%nat ->
                 isPinUnique env store j (candidate env length j) = false.
Proof.
  revert k. induction fuel as [|fuel IH]; intros k; simpl; [discriminate|].
  destruct (isPinUnique env store k (candidate env length k)) eqn:E.
  - intros [= <-]. exists 0%nat. rewrite Nat.add_0_r.
    split; [lia|]. split; [reflexivity|]. split; [exact E|]. intros j Hj. lia.
  - intros H. destruct (IH (S k) H) as (n & Hn & Hpin & Hacc & Hrej).
    exists (S n). replace (k + S n)%nat with (S k + n)%nat by lia.
    split; [lia|]. split; [exact Hpin|]. split; [exact Hacc|].
    intros j Hj. destruct (decide (j = k)) as [->|Hne]; [exact E|].
    apply Hrej. lia.
Qed.

(** X3.  What [generateUniquePin] returns: a PIN made of PIN characters
    under which the collection, which is configured, had no record when it
    was read without an error; it is the first candidate of the run that
    passed, after fewer attempts than the iterations allowed. *)
Theorem generateUniquePin_returns_free_pin (fuel : nat) (env : Env)
    (store : gmap string FileMetadata) (pin : string) :
  generateUniquePin fuel env store = Some pin ->
  store !! pin = None
  /\ FILES_COLLECTION env = true
  /\ all_pin_chars pin = true
  /\ exists k, (k < fuel)%nat
       /\ pin = candidate env 6 k
       /\ firestore_get_throws env k = false
       /\ forall j, (j < k)%nat -> isPinUnique env store j (candidate env 6 j) = false.
Proof.
  intros H. apply generateUniquePin_from_returns in H as (n & Hn & Hpin & Hacc & Hrej).
  simpl in *. apply isPinUnique_true_inv in Hacc as (Hdb & Hget & Hfree).
  split; [exact Hfree|]. split; [exact Hdb|].
  split; [rewrite Hpin; apply generatePin_pin_chars|].
  exists n. split; [exact Hn|]. split; [exact Hpin|]. split; [exact Hget|].
  intros j Hj. apply Hrej. lia.
Qed.

Lemma generateUniquePin_returns_free_pin_witness :
  Sample.occupied_A !! "ABCDEF" = None
  /\ FILES_COLLECTION Sample.env = true
  /\ all_pin_chars "ABCDEF" = true
  /\ exists k, (k < 4)%nat
       /\ "ABCDEF" = candidate Sample.env 6 k
       /\ firestore_get_throws Sample.env k = false
       /\ forall j, (j < k)%nat ->
            isPinUnique Sample.env Sample.occupied_A j (candidate Sample.env 6 j) = false.
Proof.
  exact (generateUniquePin_returns_free_pin 4 Sample.env Sample.occupied_A "ABCDEF" eq_refl).
Defined.

(** X4.  [isPinUnique] answers [false] when the collection is null and
    when the read throws, so with the collection null, or with every read
    throwing, [generateUniquePin] has not returned after any number of
    iterations. *)
Theorem generateUniquePin_stuck_without_reads (env : Env) (store : gmap string FileMetadata) :
  FILES_COLLECTION env = false \/ (forall n, firestore_get_throws env n = true) ->
  forall fuel, generateUniquePin fuel env store = None.
Proof.
  intros H fuel. apply generateUniquePin_from_rejected. intros j _.
  unfold isPinUnique. destruct H as [-> | H]; [reflexivity|].
  rewrite H. now destruct (negb (FILES_COLLECTION env)).
Qed.

Lemma generateUniquePin_stuck_without_reads_witness :
  generateUniquePin 1000 Sample2.env_down ∅ = None
  /\ generateUniquePin 1000 Sample2.env_store_failing ∅ = None.
Proof.
  split.
  - apply (generateUniquePin_stuck_without_reads Sample2.env_down ∅). left. reflexivity.
  - apply (generateUniquePin_stuck_without_reads Sample2.env_store_failing ∅).
    right. intros n. reflexivity.
Defined.

Lemma issuance_invariant_step (env1 env2 : Env) (md1 md2 : string -> FileMetadata)
    (st : gmap string FileMetadata) (who : Interleaving.Who) (c : Interleaving.Config) :
  issuance_invariant st c ->
  issuance_invariant st (Interleaving.step env1 env2 md1 md2 who c).
Proof.
  intros (Hkeep & Hf1 & Hf2 & Hn1 & Hn2).
  assert (Hins : forall (pin p : string) (md : FileMetadata),
             is_Some (Interleaving.store c !! p) ->
             is_Some (<[pin := md]> (Interleaving.store c) !! p)).
  { intros pin p md Hp. destruct (decide (pin = p)) as [->|Hne].
    - rewrite lookup_insert_eq. eauto.
    - now rewrite lookup_insert_ne. }
  assert (Hfree : forall env k pin,
             isPinUnique env (Interleaving.store c) k pin = true -> st !! pin = None).
  { intros env k pin U. apply isPinUnique_true in U.
    destruct (st !! pin) eqn:E; [|reflexivity].
    destruct (Hkeep pin) as [x Hx]; [eauto|]. congruence. }
  destruct who; unfold Interleaving.step, issuance_invariant.
  - destruct (Interleaving.first c) as [k|pin|pin] eqn:E; simpl.
    + destruct (isPinUnique env1 (Interleaving.store c) k (candidate env1 6 k)) eqn:U; simpl;
        (split; [exact Hkeep|]); (split; [intros p [=]|]); (split; [exact Hf2|]);
        (split; [|exact Hn2]).
      * intros p [[= <-]|[=]]. eapply Hfree, U.
      * intros p [[=]|[=]].
    + split; [intros p Hp; apply Hins, Hkeep, Hp|].
      split; [intros p [= <-]; rewrite lookup_insert_eq; eauto|].
      split; [intros p Hp; apply Hins, Hf2, Hp|].
      split; [|exact Hn2].
      intros p [[=]|[= <-]]. apply Hn1. now left.
    + split; [exact Hkeep|].
      split; [intros p [= <-]; apply Hf1; reflexivity|].
      split; [exact Hf2|]. split; [|exact Hn2].
      intros p [[=]|[= <-]]. apply Hn1. now right.
  - destruct (Interleaving.second c) as [k|pin|pin] eqn:E; simpl.
    + destruct (isPinUnique env2 (Interleaving.store c) k (candidate env2 6 k)) eqn:U; simpl;
        (split; [exact Hkeep|]); (split; [exact Hf1|]); (split; [intros p [=]|]);
        (split; [exact Hn1|]).
      * intros p [[= <-]|[=]]. eapply Hfree, U.
      * intros p [[=]|[=]].
    + split; [intros p Hp; apply Hins, Hkeep, Hp|].
      split; [intros p Hp; apply Hins, Hf1, Hp|].
      split; [intros p [= <-]; rewrite lookup_insert_eq; eauto|].
      split; [exact Hn1|].
      intros p [[=]|[= <-]]. apply Hn2. now left.
    + split; [exact Hkeep|]. split; [exact Hf1|].
      split; [intros p [= <-]; apply Hf2; reflexivity|].
      split; [exact Hn1|].
      intros p [[=]|[= <-]]. apply Hn2. now right.
Qed.

Lemma run_issuance_invariant (env1 env2 : Env) (md1 md2 : string -> FileMetadata)
    (st : gmap string FileMetadata) (schedule : list Interleaving.Who) :
  issuance_invariant st
    (Interleaving.run env1 env2 md1 md2 schedule (Interleaving.start st)).
Proof.
  assert (Hrun : forall c, issuance_invariant st c ->
            issuance_invariant st (Interleaving.run env1 env2 md1 md2 schedule c)).
  { induction schedule as [|who rest IH]; intros c Hc; simpl; [exact Hc|].
    apply IH, issuance_invariant_step, Hc. }
  apply Hrun. unfold issuance_invariant, Interleaving.start. simpl.
  split; [auto|]. split; [intros p [=]|]. split; [intros p [=]|].
  split; intros p [[=]|[=]].
Qed.

(** X5.  Whatever the schedule of two issuances that share the collection:
    no key that was in the collection is lost, a finished issuance has a
    record under its PIN, and the PIN an issuance returned was not a key of
    the collection they started from. *)
Theorem interleaved_issuance_records (env1 env2 : Env) (md1 md2 : string -> FileMetadata)
    (st : gmap string FileMetadata) (schedule : list Interleaving.Who) :
  let c := Interleaving.run env1 env2 md1 md2 schedule (Interleaving.start st) in
  (forall p, is_Some (st !! p) -> is_Some (Interleaving.store c !! p))
  /\ (forall p, Interleaving.first c = Interleaving.Finished p
                \/ Interleaving.second c = Interleaving.Finished p ->
                is_Some (Interleaving.store c !! p) /\ st !! p = None).
Proof.
  intros c.
  destruct (run_issuance_invariant env1 env2 md1 md2 st schedule)
    as (Hkeep & Hf1 & Hf2 & Hn1 & Hn2).
  split; [exact Hkeep|]. intros p [H|H].
  - split; [apply Hf1, H|apply Hn1; now right].
  - split; [apply Hf2, H|apply Hn2; now right].
Qed.

Lemma interleaved_issuance_records_witness :
  let c := Interleaving.run Sample.env_A Sample.env (fun p => Sample.record p None)
             (fun p => Sample.record p None)
             [Interleaving.First; Interleaving.Second; Interleaving.First;
              Interleaving.Second; Interleaving.First]
             (Interleaving.start Sample.occupied_A) in
  is_Some (Interleaving.store c !! "AAAAAA")
  /\ Interleaving.second c = Interleaving.Finished "ABCDEF"
  /\ is_Some (Interleaving.store c !! "ABCDEF")
  /\ Sample.occupied_A !! "ABCDEF" = None.
Proof.
  intros c.
  destruct (interleaved_issuance_records Sample.env_A Sample.env
              (fun p => Sample.record p None) (fun p => Sample.record p None)
              Sample.occupied_A
              [Interleaving.First; Interleaving.Second; Interleaving.First;
               Interleaving.Second; Interleaving.First]) as [Hkeep Hfin].
  split; [apply Hkeep; eexists; reflexivity|].
  split; [reflexivity|]. apply Hfin. right. reflexivity.
Defined.

Lemma old_records_kept_step (env1 env2 : Env) (md1 md2 : string -> FileMetadata)
    (st : gmap string FileMetadata) (who : Interleaving.Who) (c : Interleaving.Config) :
  issuance_invariant st c ->
  old_records_kept st c ->
  old_records_kept st (Interleaving.step env1 env2 md1 md2 who c).
Proof.
  intros (_ & _ & _ & Hn1 & Hn2) (Hold & Hnew).
  assert (Hins : forall (pin p : string) (md md' : FileMetadata),
             st !! pin = None -> st !! p = Some md ->
             <[pin := md']> (Interleaving.store c) !! p = Some md).
  { intros pin p md md' Hfree Hp. rewrite lookup_insert_ne; [now apply Hold|congruence]. }
  destruct who; unfold Interleaving.step, old_records_kept.
  - destruct (Interleaving.first c) as [k|pin|pin] eqn:E; simpl.
    + destruct (isPinUnique env1 (Interleaving.store c) k (candidate env1 6 k)); simpl;
        (split; [exact Hold|]); intros p Hp;
        destruct (Hnew p Hp) as [H|[H|H]]; auto; discriminate.
    + split.
      * intros p md Hp. apply Hins; [apply Hn1; now left|exact Hp].
      * intros p Hp. destruct (decide (pin = p)) as [->|Hne]; [auto|].
        rewrite lookup_insert_ne in Hp by exact Hne.
        destruct (Hnew p Hp) as [H|[H|H]]; auto. discriminate.
    + split; [exact Hold|]. intros p Hp. destruct (Hnew p Hp) as [H|[H|H]]; auto.
  - destruct (Interleaving.second c) as [k|pin|pin] eqn:E; simpl.
    + destruct (isPinUnique env2 (Interleaving.store c) k (candidate env2 6 k)); simpl;
        (split; [exact Hold|]); intros p Hp;
        destruct (Hnew p Hp) as [H|[H|H]]; auto; discriminate.
    + split.
      * intros p md Hp. apply Hins; [apply Hn2; now left|exact Hp].
      * intros p Hp. destruct (decide (pin = p)) as [->|Hne]; [auto|].
        rewrite lookup_insert_ne in Hp by exact Hne.
        destruct (Hnew p Hp) as [H|[H|H]]; auto. discriminate.
    + split; [exact Hold|]. intros p Hp. destruct (Hnew p Hp) as [H|[H|H]]; auto.
Qed.

(** X9.  Records that are in the collection when two uploads begin are
    written once: whatever the schedule of the reads and writes of the two
    runs, every such record is still there and unchanged, and every other
    key of the collection is the PIN of a run that has finished.  (A record
    written during the runs can be replaced by the other run, which is what
    the schedule read, read, write, write does.) *)
Theorem interleaved_issuance_keeps_old_records (env1 env2 : Env)
    (md1 md2 : string -> FileMetadata) (st : gmap string FileMetadata)
    (schedule : list Interleaving.Who) :
  let c := Interleaving.run env1 env2 md1 md2 schedule (Interleaving.start st) in
  (forall p md, st !! p = Some md -> Interleaving.store c !! p = Some md)
  /\ (forall p, is_Some (Interleaving.store c !! p) ->
                is_Some (st !! p)
                \/ Interleaving.first c = Interleaving.Finished p
                \/ Interleaving.second c = Interleaving.Finished p).
Proof.
  assert (Hrun : forall c, issuance_invariant st c -> old_records_kept st c ->
            issuance_invariant st (Interleaving.run env1 env2 md1 md2 schedule c)
            /\ old_records_kept st (Interleaving.run env1 env2 md1 md2 schedule c)).
  { induction schedule as [|who rest IH]; intros c Hi Ho; simpl; [now split|].
    apply IH; [now apply issuance_invariant_step|now apply old_records_kept_step]. }
  intros c. apply Hrun.
  - unfold issuance_invariant, Interleaving.start. simpl.
    split; [auto|]. split; [intros p [=]|]. split; [intros p [=]|].
    split; intros p [[=]|[=]].
  - unfold old_records_kept, Interleaving.start. simpl. split; auto.
Qed.

Lemma interleaved_issuance_keeps_old_records_witness :
  let c := Interleaving.run Sample.env_A Sample.env (fun p => Sample.record p None)
             (fun p => Sample.record p None)
             [Interleaving.First; Interleaving.Second; Interleaving.First;
              Interleaving.Second; Interleaving.First]
             (Interleaving.start Sample.occupied_A) in
  Interleaving.store c !! "AAAAAA" = Some (Sample.record "AAAAAA" (Some 5))
  /\ is_Some (Interleaving.store c !! "ABCDEF")
  /\ (is_Some (Sample.occupied_A !! "ABCDEF")
      \/ Interleaving.first c = Interleaving.Finished "ABCDEF"
      \/ Interleaving.second c = Interleaving.Finished "ABCDEF").
Proof.
  intros c.
  destruct (interleaved_issuance_keeps_old_records Sample.env_A Sample.env
              (fun p => Sample.record p None) (fun p => Sample.record p None)
              Sample.occupied_A
              [Interleaving.First; Interleaving.Second; Interleaving.First;
               Interleaving.Second; Interleaving.First]) as [Hold Hnew].
  assert (Hk : is_Some (Interleaving.store c !! "ABCDEF")) by (eexists; reflexivity).
  split; [apply Hold; reflexivity|]. split; [exact Hk|]. apply Hnew, Hk.
Defined.

(** ** What a run of the handler touches *)

Lemma grows_refl (P : Effect -> Prop) (w : World) : grows P w w.
Proof. exists []. split; [now rewrite app_nil_r|constructor]. Qed.

Lemma grows_trans (P : Effect -> Prop) (w1 w2 w3 : World) :
  grows P w1 w2 -> grows P w2 w3 -> grows P w1 w3.
Proof.
  intros (n1 & H1 & F1) (n2 & H2 & F2). exists (n1 ++ n2).
  split; [rewrite H2, H1; now rewrite app_assoc|]. apply Forall_app. now split.
Qed.

Lemma grows_emit (P : Effect -> Prop) (e : Effect) (w w1 : World) :
  P e -> grows P w w1 -> grows P w (emit e w1).
Proof.
  intros He (new & H & F). exists (new ++ [e]). split.
  - simpl. rewrite H. now rewrite app_assoc.
  - apply Forall_app. split; [exact F|]. constructor; [exact He|constructor].
Qed.

Lemma grows_say (P : Effect -> Prop) (c : Z) (r : Reply) (w w1 : World) :
  P (sendMessage c r) -> grows P w w1 -> grows P w (say c r w1).
Proof. apply grows_emit. Qed.

Lemma grows_set_state (P : Effect -> Prop) (c : Z) (s : State) (w w1 : World) :
  grows P w w1 -> grows P w (set_state c s w1).
Proof. auto. Qed.

Lemma grows_delete_state (P : Effect -> Prop) (c : Z) (w w1 : World) :
  grows P w w1 -> grows P w (delete_state c w1).
Proof. auto. Qed.

Lemma grows_set_number (P : Effect -> Prop) (c : Z) (n : string) (w w1 : World) :
  grows P w w1 -> grows P w (set_number c n w1).
Proof. auto. Qed.

Lemma grows_delete_number (P : Effect -> Prop) (c : Z) (w w1 : World) :
  grows P w w1 -> grows P w (delete_number c w1).
Proof. auto. Qed.

Lemma grows_store_file (P : Effect -> Prop) (pin : string) (md : FileMetadata) (w w1 : World) :
  grows P w w1 -> grows P w (store_file pin md w1).
Proof. auto. Qed.

Lemma grows_emitted (P : Effect -> Prop) (w w' : World) :
  grows P w w' -> log w' = log w ++ emitted w w' /\ Forall P (emitted w w').
Proof.
  intros (new & H & F). rewrite (emitted_app w w' new H). now split.
Qed.

Create HintDb effects discriminated.

#[local] Hint Resolve grows_refl grows_emit grows_say grows_set_state grows_delete_state
  grows_set_number grows_delete_number grows_store_file : effects.
#[local] Hint Extern 1 (tame _ _) => exact I : effects.
#[local] Hint Extern 1 (tame _ _) => exact eq_refl : effects.

Lemma downloadFileFromUrl_tame (env : Env) (url : string) (c : Z) (w w1 : World) :
  grows (tame c) w w1 -> grows (tame c) w (downloadFileFromUrl env url c w1).
Proof.
  intros H. unfold downloadFileFromUrl. simpl fs. cbn [negb].
  repeat case_match; auto 10 with effects.
Qed.

#[local] Hint Resolve downloadFileFromUrl_tame : effects.

Lemma on_command_tame (env : Env) (c : Z) (command : string) (w w1 : World) :
  grows (tame c) w w1 -> grows (tame c) w (on_command env c command w1).
Proof.
  intros H. unfold on_command. repeat case_match; auto 10 with effects.
Qed.

Lemma commands_tame (env : Env) (s : State) (msg : Msg) (w w1 : World) :
  grows (tame (chat_id msg)) w w1 ->
  grows (tame (chat_id msg)) w (commands env s msg w1).
Proof.
  intros H. unfold commands.
  repeat case_match; auto using on_command_tame with effects.
Qed.

(** The effects of a conversation branch are tame, but for the one path of
    the look-up branch that resends the stored file. *)
Lemma conversation_effects (fuel : nat) (env : Env) (s : State) (msg : Msg)
    (w w' : World) (flow : Flow) :
  conversation fuel env s msg w = Some (w', flow) ->
  grows (tame (chat_id msg)) w w'
  \/ (s = GETFILE_ASK_PIN /\ flow = Continue
      /\ exists t md,
           plain_text msg = Some t
           /\ FILES_COLLECTION env = true
           /\ firestore_get_throws env 0 = false
           /\ files w !! Js.toUpperCase (Js.trim t) = Some md
           /\ Js.truthy (md_file_id md) = true
           /\ or_zero (md_file_size md) <= TELEGRAM_FILE_LIMIT
           /\ sendDocument_throws env = false
           /\ w' = delete_state (chat_id msg)
                     (say (chat_id msg) R_file_sent
                        (emit (sendDocument (chat_id msg) (ByFileId (md_file_id md))
                                 (or_string (Some (md_file_name md)) "downloaded_file"))
                           (say (chat_id msg) R_downloading_stored
                              (say (chat_id msg) (R_looking_up (Js.toUpperCase (Js.trim t)))
                                 w))))).
Proof.
  unfold conversation. destruct s; intros Hc.
  - left. simplify_eq. auto with effects.
  - left. unfold on_SENDMSG_ASK_NUMBER in Hc.
    repeat case_match; simplify_eq; auto 10 with effects.
  - left. unfold on_SENDMSG_ASK_MESSAGE in Hc.
    repeat case_match; simplify_eq; auto 10 with effects.
  - left. unfold on_YT_ASK_URL in Hc. simplify_eq. auto 10 with effects.
  - left. unfold on_UPLOAD_WAIT_FILE in Hc.
    repeat case_match; simplify_eq; auto 10 with effects.
  - unfold on_GETFILE_ASK_PIN in Hc.
    destruct (plain_text msg) as [t|] eqn:Ht; [|left; simplify_eq; auto with effects].
    destruct (FILES_COLLECTION env) eqn:Hdb; cbn [negb] in Hc;
      [|left; simplify_eq; auto 10 with effects].
    destruct (firestore_get_throws env 0) eqn:Hget;
      [left; simplify_eq; auto 10 with effects|].
    cbn [files say emit] in Hc.
    destruct (files w !! Js.toUpperCase (Js.trim t)) as [md|] eqn:Hmd;
      [|left; simplify_eq; auto 10 with effects].
    destruct (Js.truthy (md_file_id md)) eqn:Hid; cbn [negb] in Hc;
      [|left; simplify_eq; auto 10 with effects].
    destruct (TELEGRAM_FILE_LIMIT <? or_zero (md_file_size md)) eqn:Hsize;
      [left; simplify_eq; auto 10 with effects|].
    destruct (sendDocument_throws env) eqn:Hsend;
      [left; simplify_eq; auto 10 with effects|].
    right. simplify_eq. split; [reflexivity|]. split; [reflexivity|].
    exists t, md. apply Z.ltb_ge in Hsize. repeat split; assumption.
  - left. unfold on_AI_ASK_QUERY in Hc.
    repeat case_match; simplify_eq; auto 10 with effects.
  - left. unfold on_DOWNLOAD_ASK_URL in Hc.
    repeat case_match; simplify_eq; auto 10 with effects.
Qed.

Lemma on_message_effects (fuel : nat) (env : Env) (msg : Msg) (w w' : World) :
  on_message fuel env msg w = Some w' ->
  grows (tame (chat_id msg)) w w'
  \/ (currentState w (chat_id msg) = GETFILE_ASK_PIN
      /\ exists t md,
           plain_text msg = Some t
           /\ FILES_COLLECTION env = true
           /\ firestore_get_throws env 0 = false
           /\ files w !! Js.toUpperCase (Js.trim t) = Some md
           /\ Js.truthy (md_file_id md) = true
           /\ or_zero (md_file_size md) <= TELEGRAM_FILE_LIMIT
           /\ sendDocument_throws env = false
           /\ log w'
              = log w ++
                [sendMessage (chat_id msg) (R_looking_up (Js.toUpperCase (Js.trim t)));
                 sendMessage (chat_id msg) R_downloading_stored;
                 sendDocument (chat_id msg) (ByFileId (md_file_id md))
                   (or_string (Some (md_file_name md)) "downloaded_file");
                 sendMessage (chat_id msg) R_file_sent]).
Proof.
  unfold on_message.
  destruct (conversation fuel env (currentState w (chat_id msg)) msg w)
    as [[w1 flow]|] eqn:E; [|discriminate].
  intros Hrun. apply conversation_effects in E as [Htame|(Hs & -> & t & md & H)].
  - left. destruct flow; simplify_eq; [now apply commands_tame|exact Htame].
  - right. split; [exact Hs|]. exists t, md.
    destruct H as (Ht & Hdb & Hget & Hmd & Hid & Hsize & Hsend & ->).
    repeat split; try assumption.
    rewrite commands_no_command in Hrun
      by (try (rewrite Hs; discriminate); eapply plain_text_not_command; eassumption).
    simplify_eq. simpl. rewrite <- !app_assoc. reflexivity.
Qed.

Lemma tame_addressed (c : Z) (e : Effect) : tame c e -> addressed_to c e.
Proof. destruct e; simpl; auto. contradiction. Qed.

(** X6.  The handler only appends to what it has done, and every message
    and document of a run goes to the chat the inbound message came from. *)
Theorem on_message_replies_to_sender (fuel : nat) (env : Env) (msg : Msg) (w w' : World) :
  on_message fuel env msg w = Some w' ->
  log w' = log w ++ emitted w w'
  /\ Forall (addressed_to (chat_id msg)) (emitted w w').
Proof.
  intros Hrun. destruct (on_message_effects fuel env msg w w' Hrun) as [H|(_ & t & md & H)].
  - apply grows_emitted in H as [Hlog F]. split; [exact Hlog|].
    eapply Forall_impl; [exact F|]. intros e. apply tame_addressed.
  - destruct H as (_ & _ & _ & _ & _ & _ & _ & Hlog).
    rewrite (emitted_app _ _ _ Hlog). split; [exact Hlog|]. repeat constructor.
Qed.

Lemma on_message_replies_to_sender_witness :
  let w := Sample.asked_for_pin (Some 5) in
  let w' := Sample.after 0 Sample.env (Sample.text_message 2 "abcdef") w in
  log w' = log w ++ emitted w w' /\ Forall (addressed_to 2) (emitted w w').
Proof.
  intros w w'.
  exact (on_message_replies_to_sender 0 Sample.env (Sample.text_message 2 "abcdef")
           w w' eq_refl).
Defined.

(** X7.  A document is sent on one path only: the chat is asked for a PIN
    and the text is no command; and what is sent, to that chat, is the file
    reference of a record of the collection, one whose file reference is not
    empty and whose size is within the limit. *)
Theorem sendDocument_only_from_lookup (fuel : nat) (env : Env) (msg : Msg) (w w' : World)
    (c : Z) (src : DocSource) (name : string) :
  on_message fuel env msg w = Some w' ->
  sendDocument c src name ∈ emitted w w' ->
  c = chat_id msg
  /\ currentState w (chat_id msg) = GETFILE_ASK_PIN
  /\ is_Some (plain_text msg)
  /\ exists key md,
       files w !! key = Some md
       /\ src = ByFileId (md_file_id md)
       /\ md_file_id md <> ""
       /\ or_zero (md_file_size md) <= TELEGRAM_FILE_LIMIT.
Proof.
  intros Hrun Hin.
  destruct (on_message_effects fuel env msg w w' Hrun) as [H|(Hs & t & md & H)].
  - apply grows_emitted in H as [_ F]. rewrite Forall_forall in F.
    apply F in Hin. contradiction.
  - destruct H as (Ht & _ & _ & Hmd & Hid & Hsize & _ & Hlog).
    rewrite (emitted_app _ _ _ Hlog) in Hin.
    repeat (apply elem_of_cons in Hin as [Hin|Hin]; [try discriminate|]);
      [|now apply elem_of_nil in Hin].
    injection Hin as -> -> ->.
    split; [reflexivity|]. split; [exact Hs|]. split; [eauto|].
    exists (Js.toUpperCase (Js.trim t)), md.
    repeat split; try assumption. intros E. rewrite E in Hid. discriminate.
Qed.

Lemma sendDocument_only_from_lookup_witness :
  let w := Sample.asked_for_pin (Some 5) in
  let msg := Sample.text_message 2 "abcdef" in
  let w' := Sample.after 0 Sample.env msg w in
  currentState w 2 = GETFILE_ASK_PIN
  /\ is_Some (plain_text msg)
  /\ exists key md,
       files w !! key = Some md
       /\ ByFileId "BQACAgQAAx0" = ByFileId (md_file_id md)
       /\ md_file_id md <> ""
       /\ or_zero (md_file_size md) <= TELEGRAM_FILE_LIMIT.
Proof.
  intros w msg w'.
  apply (sendDocument_only_from_lookup 0 Sample.env msg w w'
           2 (ByFileId "BQACAgQAAx0") "report.pdf" eq_refl).
  apply elem_of_cons. right. apply elem_of_cons. right. apply elem_of_cons. now left.
Defined.

Lemma same_elsewhere_refl (c : Z) (w : World) : same_elsewhere c w w.
Proof. intros chat _. split; reflexivity. Qed.

Lemma same_elsewhere_emit (c : Z) (e : Effect) (w w1 : World) :
  same_elsewhere c w w1 -> same_elsewhere c w (emit e w1).
Proof. auto. Qed.

Lemma same_elsewhere_say (c c' : Z) (r : Reply) (w w1 : World) :
  same_elsewhere c w w1 -> same_elsewhere c w (say c' r w1).
Proof. auto. Qed.

Lemma same_elsewhere_store_file (c : Z) (pin : string) (md : FileMetadata) (w w1 : World) :
  same_elsewhere c w w1 -> same_elsewhere c w (store_file pin md w1).
Proof. auto. Qed.

Lemma same_elsewhere_set_state (c : Z) (s : State) (w w1 : World) :
  same_elsewhere c w w1 -> same_elsewhere c w (set_state c s w1).
Proof.
  intros H chat Hne. destruct (H chat Hne) as [H1 H2]. simpl.
  rewrite lookup_insert_ne by congruence. now split.
Qed.

Lemma same_elsewhere_delete_state (c : Z) (w w1 : World) :
  same_elsewhere c w w1 -> same_elsewhere c w (delete_state c w1).
Proof.
  intros H chat Hne. destruct (H chat Hne) as [H1 H2]. simpl.
  rewrite lookup_delete_ne by congruence. now split.
Qed.

Lemma same_elsewhere_set_number (c : Z) (n : string) (w w1 : World) :
  same_elsewhere c w w1 -> same_elsewhere c w (set_number c n w1).
Proof.
  intros H chat Hne. destruct (H chat Hne) as [H1 H2]. simpl.
  rewrite lookup_insert_ne by congruence. now split.
Qed.

Lemma same_elsewhere_delete_number (c : Z) (w w1 : World) :
  same_elsewhere c w w1 -> same_elsewhere c w (delete_number c w1).
Proof.
  intros H chat Hne. destruct (H chat Hne) as [H1 H2]. simpl.
  rewrite lookup_delete_ne by congruence. now split.
Qed.

Create HintDb isolation discriminated.

#[local] Hint Resolve same_elsewhere_refl same_elsewhere_emit same_elsewhere_say
  same_elsewhere_store_file same_elsewhere_set_state same_elsewhere_delete_state
  same_elsewhere_set_number same_elsewhere_delete_number : isolation.

Lemma downloadFileFromUrl_same_elsewhere (env : Env) (url : string) (c : Z) (w w1 : World) :
  same_elsewhere c w w1 -> same_elsewhere c w (downloadFileFromUrl env url c w1).
Proof.
  intros H. unfold downloadFileFromUrl. repeat case_match; auto 10 with isolation.
Qed.

#[local] Hint Resolve downloadFileFromUrl_same_elsewhere : isolation.

Lemma commands_same_elsewhere (env : Env) (s : State) (msg : Msg) (w w1 : World) :
  same_elsewhere (chat_id msg) w w1 ->
  same_elsewhere (chat_id msg) w (commands env s msg w1).
Proof.
  intros H. unfold commands, on_command. repeat case_match; auto 10 with isolation.
Qed.

Lemma conversation_same_elsewhere (fuel : nat) (env : Env) (s : State) (msg : Msg)
    (w w' : World) (flow : Flow) :
  conversation fuel env s msg w = Some (w', flow) ->
  same_elsewhere (chat_id msg) w w'.
Proof.
  unfold conversation, on_SENDMSG_ASK_NUMBER, on_SENDMSG_ASK_MESSAGE, on_YT_ASK_URL,
    on_UPLOAD_WAIT_FILE, on_GETFILE_ASK_PIN, on_AI_ASK_QUERY, on_DOWNLOAD_ASK_URL.
  intros Hc. destruct s; repeat case_match; simplify_eq; auto 12 with isolation.
Qed.

(** X8.  Sessions are kept apart: a message from one chat changes neither
    the state nor the pending number of any other chat. *)
Theorem on_message_other_chats_untouched (fuel : nat) (env : Env) (msg : Msg)
    (w w' : World) (chat : Z) :
  on_message fuel env msg w = Some w' ->
  chat <> chat_id msg ->
  currentState w' chat = currentState w chat
  /\ pendingNumber w' chat = pendingNumber w chat.
Proof.
  intros Hrun Hne.
  assert (H : same_elsewhere (chat_id msg) w w').
  { unfold on_message in Hrun.
    destruct (conversation fuel env (currentState w (chat_id msg)) msg w)
      as [[w1 flow]|] eqn:E; [|discriminate].
    apply conversation_same_elsewhere in E.
    destruct flow; simplify_eq; [now apply commands_same_elsewhere|exact E]. }
  destruct (H chat Hne) as [H1 H2]. unfold currentState, pendingNumber.
  now rewrite H1, H2.
Qed.

Lemma on_message_other_chats_untouched_witness :
  let w := Sample2.two_chats in
  let w' := Sample.after 0 Sample.env (Sample.text_message 2 "/cancel") w in
  currentState w' 2 = NONE
  /\ currentState w' 1 = currentState w 1
  /\ pendingNumber w' 1 = pendingNumber w 1.
Proof.
  intros w w'. split; [reflexivity|].
  apply (on_message_other_chats_untouched 0 Sample.env (Sample.text_message 2 "/cancel")
           w w' 1 eq_refl).
  discriminate.
Defined.

(** The collection after a run: as it was, or with one record more, which
    the upload branch wrote under a PIN that was free. *)
Lemma on_message_files (fuel : nat) (env : Env) (msg : Msg) (w w' : World) :
  on_message fuel env msg w = Some w' ->
  files w' = files w
  \/ exists fileObj fileName P,
       currentState w (chat_id msg) = UPLOAD_WAIT_FILE
       /\ select_file msg = Picked fileObj fileName
       /\ declared_oversized (file_size fileObj) = false
       /\ generateUniquePin fuel env (files w) = Some P
       /\ firestore_set_throws env (fileMetadata msg fileObj fileName P) = false
       /\ files w' = <[P := fileMetadata msg fileObj fileName P]> (files w).
Proof.
  unfold on_message.
  destruct (currentState w (chat_id msg)) eqn:Hs; cbn [conversation].
  5: { unfold on_UPLOAD_WAIT_FILE.
       destruct (select_file msg) as [|fileObj fileName|] eqn:Hsel;
         [intros [= <-]; now left| |intros [= <-]; now left].
       destruct (declared_oversized (file_size fileObj)) eqn:Hsize;
         [intros [= <-]; now left|].
       destruct (negb (FILES_COLLECTION env)); [intros [= <-]; now left|].
       cbn [files say emit].
       destruct (generateUniquePin fuel env (files w)) as [P|] eqn:Hpin; [|discriminate].
       destruct (firestore_set_throws env (fileMetadata msg fileObj fileName P)) eqn:Hset;
         intros [= <-]; rewrite commands_files; [now left|].
       right. exists fileObj, fileName, P. repeat split; assumption. }
  all: unfold on_SENDMSG_ASK_NUMBER, on_SENDMSG_ASK_MESSAGE, on_YT_ASK_URL,
         on_GETFILE_ASK_PIN, on_AI_ASK_QUERY, on_DOWNLOAD_ASK_URL, downloadFileFromUrl;
       intros Hrun; left;
       repeat case_match; simplify_eq; rewrite ?commands_files; reflexivity.
Qed.

(** X10.  The upload branch keeps the collection well formed: if every
    record carries its own key, has a key made of PIN characters, and has a
    size that is absent, zero or within the limit, the same holds after any
    run of the handler. *)
Theorem on_message_keeps_collection_wellformed (fuel : nat) (env : Env) (msg : Msg)
    (w w' : World) :
  on_message fuel env msg w = Some w' ->
  wellformed_collection (files w) ->
  wellformed_collection (files w').
Proof.
  intros Hrun Hwf.
  destruct (on_message_files fuel env msg w w' Hrun)
    as [->|(fileObj & fileName & P & _ & _ & Hsize & Hpin & _ & ->)]; [exact Hwf|].
  intros pin md. destruct (decide (P = pin)) as [->|Hne].
  - rewrite lookup_insert_eq. intros [= <-].
    apply generateUniquePin_from_Some in Hpin as (j & -> & _).
    split; [reflexivity|]. split; [apply generatePin_pin_chars|exact Hsize].
  - rewrite lookup_insert_ne by exact Hne. apply Hwf.
Qed.

Lemma on_message_keeps_collection_wellformed_witness :
  let w := Sample.waiting_for_file in
  let w' := Sample.after 1 Sample.env (Sample.document_message 1 (Some 10)) w in
  is_Some (files w' !! "ABCDEF") /\ wellformed_collection (files w').
Proof.
  intros w w'. split; [eexists; reflexivity|].
  apply (on_message_keeps_collection_wellformed 1 Sample.env
           (Sample.document_message 1 (Some 10)) w w' eq_refl).
  intros pin md H. unfold w in H. simpl in H. rewrite lookup_empty in H. discriminate.
Defined.

(** ** Commands and the remaining branches *)

Lemma command_is_no_url (t : string) :
  Js.startsWith "/" t = true ->
  Js.startsWith "http://" t || Js.startsWith "https://" t = false.
Proof.
  destruct t as [|c t]; [discriminate|]. cbn [Js.startsWith].
  destruct (Ascii.eqb "/" c) eqn:E; [|discriminate]. intros _.
  apply Ascii.eqb_eq in E. subst c. reflexivity.
Qed.

(** A command sent in any state but [UPLOAD_WAIT_FILE] reaches the command
    block; before that the branch of the state has sent its prompt and, in
    state [YT_ASK_URL], has deleted the state. *)
Lemma question_command (fuel : nat) (env : Env) (msg : Msg) (w : World) (t : string) :
  currentState w (chat_id msg) <> UPLOAD_WAIT_FILE ->
  command_text msg = Some t ->
  exists w1,
    on_message fuel env msg w = Some (on_command env (chat_id msg) (Js.split_space_0 t) w1)
    /\ files w1 = files w
    /\ userNumbers w1 = userNumbers w
    /\ (userStates w1 = userStates w
        \/ (currentState w (chat_id msg) = YT_ASK_URL
            /\ userStates w1 = delete (chat_id msg) (userStates w))).
Proof.
  intros Hs Hc. unfold on_message.
  pose proof (command_text_not_plain msg t Hc) as Hp.
  pose proof Hc as Hc'. apply command_text_Some in Hc' as [Ht Hslash].
  destruct (currentState w (chat_id msg)) eqn:E; try congruence; cbn [conversation];
    unfold on_SENDMSG_ASK_NUMBER, on_SENDMSG_ASK_MESSAGE, on_YT_ASK_URL,
      on_GETFILE_ASK_PIN, on_AI_ASK_QUERY, on_DOWNLOAD_ASK_URL;
    rewrite ?Hp, ?Ht, ?(command_is_no_url t Hslash), ?andb_false_r;
    rewrite (commands_command env _ msg _ t Hc);
    eexists; (split; [reflexivity|]); (split; [reflexivity|]); (split; [reflexivity|]);
    simpl; auto.
Qed.

(** X11.  Commands override a pending question: in every state but
    [UPLOAD_WAIT_FILE], a text whose first word is a command moves the
    session to the state of that command, whatever was asked before
    ([/upload_file] and [/get_file] when the collection is configured,
    [/ask_ai] when the model is), and [/cancel] also deletes the number. *)
Theorem command_overrides_question (fuel : nat) (env : Env) (msg : Msg) (w : World)
    (t : string) :
  currentState w (chat_id msg) <> UPLOAD_WAIT_FILE ->
  command_text msg = Some t ->
  exists w', on_message fuel env msg w = Some w'
    /\ (Js.split_space_0 t = "/sendmsg" ->
          currentState w' (chat_id msg) = SENDMSG_ASK_NUMBER)
    /\ (Js.split_space_0 t = "/yt_download" ->
          currentState w' (chat_id msg) = YT_ASK_URL)
    /\ (Js.split_space_0 t = "/download_url" ->
          currentState w' (chat_id msg) = DOWNLOAD_ASK_URL)
    /\ (Js.split_space_0 t = "/upload_file" -> FILES_COLLECTION env = true ->
          currentState w' (chat_id msg) = UPLOAD_WAIT_FILE)
    /\ (Js.split_space_0 t = "/get_file" -> FILES_COLLECTION env = true ->
          currentState w' (chat_id msg) = GETFILE_ASK_PIN)
    /\ (Js.split_space_0 t = "/ask_ai" -> geminiModel env = true ->
          currentState w' (chat_id msg) = AI_ASK_QUERY)
    /\ (Js.split_space_0 t = "/cancel" ->
          currentState w' (chat_id msg) = NONE /\ pendingNumber w' (chat_id msg) = None).
Proof.
  intros Hs Hc.
  destruct (question_command fuel env msg w t Hs Hc) as (w1 & -> & _).
  eexists. split; [reflexivity|].
  split; [|split; [|split; [|split; [|split; [|split]]]]];
    intros ->; try (intros Hdb);
    unfold on_command; simpl; rewrite ?Hdb; simpl;
    unfold currentState, pendingNumber; simpl;
    rewrite ?lookup_insert_eq, ?lookup_delete_eq; try split; reflexivity.
Qed.

Lemma command_overrides_question_witness :
  let w := Sample.asked_for_message in
  exists w', on_message 0 Sample.env (Sample.text_message 1 "/get_file now") w = Some w'
    /\ currentState w' 1 = GETFILE_ASK_PIN.
Proof.
  intros w.
  destruct (command_overrides_question 0 Sample.env (Sample.text_message 1 "/get_file now")
              w "/get_file now") as (w' & Hrun & _ & _ & _ & _ & Hget & _);
    [discriminate|reflexivity|].
  exists w'. split; [exact Hrun|]. apply Hget; reflexivity.
Defined.

(** X12.  Commands that start nothing: [/start], a command that is not
    known, and [/upload_file], [/get_file], [/ask_ai] when their service is
    not configured are answered with one message (the help text, "not
    understood", or "unavailable") and leave the state, the pending number
    and the collection as they were, in every state but [UPLOAD_WAIT_FILE]
    and [YT_ASK_URL]. *)
Theorem passive_commands_keep_session (fuel : nat) (env : Env) (msg : Msg) (w : World)
    (t : string) :
  currentState w (chat_id msg) <> UPLOAD_WAIT_FILE ->
  currentState w (chat_id msg) <> YT_ASK_URL ->
  command_text msg = Some t ->
  forall r,
    (Js.split_space_0 t = "/start" /\ r = R_help)
    \/ (Js.split_space_0 t = "/upload_file" /\ FILES_COLLECTION env = false
        /\ r = R_upload_unavailable)
    \/ (Js.split_space_0 t = "/get_file" /\ FILES_COLLECTION env = false
        /\ r = R_download_unavailable)
    \/ (Js.split_space_0 t = "/ask_ai" /\ geminiModel env = false /\ r = R_ai_unavailable)
    \/ ((Js.split_space_0 t ∉ ["/start"; "/sendmsg"; "/yt_download"; "/download_url";
                                "/upload_file"; "/get_file"; "/ask_ai"; "/cancel"])
        /\ r = R_not_understood) ->
    exists w', on_message fuel env msg w = Some w'
      /\ last (log w') = Some (sendMessage (chat_id msg) r)
      /\ userStates w' = userStates w
      /\ userNumbers w' = userNumbers w
      /\ files w' = files w.
Proof.
  intros Hs Hyt Hc r Hcases.
  destruct (question_command fuel env msg w t Hs Hc) as (w1 & -> & Hf & Hn & Hst).
  destruct Hst as [Hst|[Hyt' _]]; [|congruence].
  eexists. split; [reflexivity|].
  assert (Hcmd : on_command env (chat_id msg) (Js.split_space_0 t) w1
                 = say (chat_id msg) r w1).
  { destruct Hcases as [[-> ->]|[(-> & Hdb & ->)|[(-> & Hdb & ->)|[(-> & Hdb & ->)|[Hnot ->]]]]];
      unfold on_command; simpl; rewrite ?Hdb; try reflexivity.
    repeat match goal with
           | |- context [String.eqb (Js.split_space_0 t) ?c] =>
               destruct (String.eqb_spec (Js.split_space_0 t) c) as [E|_];
               [exfalso; apply Hnot; rewrite E; set_solver|]
           end.
    reflexivity. }
  rewrite Hcmd. simpl. rewrite last_snoc. repeat split; assumption.
Qed.

Lemma passive_commands_keep_session_witness :
  let w := Sample.asked_for_message in
  (exists w', on_message 0 Sample.env (Sample.text_message 1 "/help") w = Some w'
     /\ last (log w') = Some (sendMessage 1 R_not_understood)
     /\ userStates w' = userStates w /\ userNumbers w' = userNumbers w
     /\ files w' = files w)
  /\ (exists w', on_message 0 Sample2.env_down (Sample.text_message 1 "/upload_file") w = Some w'
     /\ last (log w') = Some (sendMessage 1 R_upload_unavailable)
     /\ userStates w' = userStates w /\ userNumbers w' = userNumbers w
     /\ files w' = files w).
Proof.
  intros w. split.
  - apply (passive_commands_keep_session 0 Sample.env (Sample.text_message 1 "/help") w "/help");
      try discriminate; try reflexivity.
    right. right. right. right. split; [|reflexivity].
    simpl. intros H. repeat (apply elem_of_cons in H as [H|H]; [discriminate|]).
    now apply elem_of_nil in H.
  - apply (passive_commands_keep_session 0 Sample2.env_down
             (Sample.text_message 1 "/upload_file") w "/upload_file");
      try discriminate; try reflexivity.
    right. left. repeat split.
Defined.



(** X14.  The AI flow: in state [AI_ASK_QUERY] a text that is no command
    is sent to the model once, and the user gets the text of the answer, or
    the fixed error text when the call throws; without a model the user is
    told the service is unavailable and the model is not called.  The flow
    ends in each case. *)
Theorem ask_ai_answer (fuel : nat) (env : Env) (msg : Msg) (w : World) (query : string) :
  currentState w (chat_id msg) = AI_ASK_QUERY ->
  plain_text msg = Some query ->
  exists w', on_message fuel env msg w = Some w'
    /\ currentState w' (chat_id msg) = NONE
    /\ emitted w w'
       = if geminiModel env
         then [sendMessage (chat_id msg) R_ai_thinking;
               geminiGenerate query;
               sendMessage (chat_id msg)
                 match gemini_response env query with
                 | Some answer => R_ai_text answer
                 | None => R_ai_error
                 end]
         else [sendMessage (chat_id msg) R_ai_unavailable].
Proof.
  intros Hs Hq. unfold on_message. rewrite Hs. cbn [conversation].
  unfold on_AI_ASK_QUERY, askGeminiAi. rewrite Hq.
  destruct (geminiModel env); cbn [negb].
  - rewrite commands_no_command
      by (try discriminate; eapply plain_text_not_command; eassumption).
    eexists. split; [reflexivity|]. split; [apply currentState_delete_state|].
    apply emitted_app. simpl. rewrite <- !app_assoc. reflexivity.
  - eexists. split; [reflexivity|]. split; [apply currentState_delete_state|].
    now apply emitted_app.
Qed.

Lemma ask_ai_answer_witness :
  let w := Sample2.asked_for_query in
  (exists w', on_message 0 Sample.env (Sample.text_message 1 "why?") w = Some w'
     /\ currentState w' 1 = NONE
     /\ emitted w w' = [sendMessage 1 R_ai_thinking; geminiGenerate "why?";
                        sendMessage 1 (R_ai_text "why?")])
  /\ (exists w', on_message 0 Sample2.env_store_failing (Sample.text_message 1 "why?") w = Some w'
     /\ currentState w' 1 = NONE
     /\ emitted w w' = [sendMessage 1 R_ai_thinking; geminiGenerate "why?";
                        sendMessage 1 R_ai_error])
  /\ (exists w', on_message 0 Sample2.env_down (Sample.text_message 1 "why?") w = Some w'
     /\ currentState w' 1 = NONE
     /\ emitted w w' = [sendMessage 1 R_ai_unavailable]).
Proof.
  intros w. split; [|split].
  - exact (ask_ai_answer 0 Sample.env (Sample.text_message 1 "why?") w "why?"
             eq_refl eq_refl).
  - exact (ask_ai_answer 0 Sample2.env_store_failing (Sample.text_message 1 "why?") w "why?"
             eq_refl eq_refl).
  - exact (ask_ai_answer 0 Sample2.env_down (Sample.text_message 1 "why?") w "why?"
             eq_refl eq_refl).
Defined.

(** X15.  With no flow going on, a message that is no command gets exactly
    one reply and changes nothing else: the hint to use [/upload_file] when
    it has no text and carries an attachment, "not understood" in every
    other case. *)
Theorem idle_message_fallback (fuel : nat) (env : Env) (msg : Msg) (w : World) :
  currentState w (chat_id msg) = NONE ->
  command_text msg = None ->
  exists r,
    on_message fuel env msg w = Some (say (chat_id msg) r w)
    /\ (r = R_use_upload_file \/ r = R_not_understood)
    /\ (r = R_use_upload_file <-> plain_text msg = None /\ has_attachment msg = true).
Proof.
  intros Hs Hc. unfold on_message. rewrite Hs. cbn [conversation].
  unfold commands. rewrite Hc. unfold command_text in Hc. unfold plain_text.
  destruct (text msg) as [t|].
  - destruct (Js.truthy t) eqn:Et; cbn [andb] in *.
    + destruct (Js.startsWith "/" t); [discriminate|]. cbn [negb].
      eexists. split; [reflexivity|]. split; [now right|].
      split; [discriminate|]. intros [[=] _].
    + destruct (has_attachment msg); eexists; (split; [reflexivity|]);
        (split; [auto|]); split; auto; try discriminate. intros [_ [=]].
  - destruct (has_attachment msg); eexists; (split; [reflexivity|]);
      (split; [auto|]); split; auto; try discriminate. intros [_ [=]].
Qed.

Lemma idle_message_fallback_witness :
  (exists r, on_message 0 Sample.env (Sample.document_message 1 (Some 10)) (fresh ∅)
             = Some (say 1 r (fresh ∅)) /\ r = R_use_upload_file)
  /\ (exists r, on_message 0 Sample.env (Sample.text_message 1 "hello") (fresh ∅)
                = Some (say 1 r (fresh ∅)) /\ r = R_not_understood).
Proof.
  split.
  - destruct (idle_message_fallback 0 Sample.env (Sample.document_message 1 (Some 10))
                (fresh ∅) eq_refl eq_refl) as (r & Hrun & _ & Hiff).
    exists r. split; [exact Hrun|]. apply Hiff. split; reflexivity.
  - destruct (idle_message_fallback 0 Sample.env (Sample.text_message 1 "hello")
                (fresh ∅) eq_refl eq_refl) as (r & Hrun & [Hr|Hr] & Hiff).
    + apply Hiff in Hr as [Hp _]. discriminate.
    + exists r. split; [exact Hrun|exact Hr].
Defined.

(** ** Failing look-ups and uploads *)

(** X16.  A look-up always ends the flow and never writes: in state
    [GETFILE_ASK_PIN], for every text that is no command and whatever the
    outside does, the run returns with the state deleted and the collection
    and the pending number as they were.  When the text, trimmed and
    upper-cased, is a non-empty string of PIN characters under which the
    collection, read without an error, has no record, the answer is
    "invalid PIN". *)
Theorem lookup_always_ends (fuel : nat) (env : Env) (msg : Msg) (w : World) (t : string) :
  currentState w (chat_id msg) = GETFILE_ASK_PIN ->
  plain_text msg = Some t ->
  exists w', on_message fuel env msg w = Some w'
    /\ currentState w' (chat_id msg) = NONE
    /\ files w' = files w
    /\ userNumbers w' = userNumbers w
    /\ (all_pin_chars (Js.toUpperCase (Js.trim t)) = true ->
        Js.toUpperCase (Js.trim t) <> "" ->
        FILES_COLLECTION env = true -> firestore_get_throws env 0 = false ->
        files w !! Js.toUpperCase (Js.trim t) = None ->
        emitted w w'
        = [sendMessage (chat_id msg) (R_looking_up (Js.toUpperCase (Js.trim t)));
           sendMessage (chat_id msg) R_invalid_pin]).
Proof.
  intros Hs Ht. unfold on_message. rewrite Hs. cbn [conversation].
  unfold on_GETFILE_ASK_PIN. rewrite Ht.
  pose proof (plain_text_not_command msg t Ht) as Hc.
  destruct (FILES_COLLECTION env); cbn [negb].
  2: { eexists. split; [reflexivity|]. split; [apply currentState_delete_state|].
       repeat split. discriminate. }
  destruct (firestore_get_throws env 0).
  { rewrite commands_no_command by (try discriminate; assumption).
    eexists. split; [reflexivity|]. split; [apply currentState_delete_state|].
    repeat split. discriminate. }
  cbn [files say emit].
  destruct (files w !! Js.toUpperCase (Js.trim t)) as [md|].
  - destruct (negb (Js.truthy (md_file_id md)));
      [|destruct (TELEGRAM_FILE_LIMIT <? or_zero (md_file_size md))];
      rewrite ?commands_no_command by (try discriminate; assumption);
      (eexists; split; [reflexivity|]); (split; [apply currentState_delete_state|]);
      repeat split; try discriminate;
      destruct (sendDocument_throws env); reflexivity.
  - rewrite commands_no_command by (try discriminate; assumption).
    eexists. split; [reflexivity|]. split; [apply currentState_delete_state|].
    repeat split. intros _ _ _ _ _. apply emitted_app. simpl. now rewrite <- app_assoc.
Qed.

Lemma lookup_always_ends_witness :
  let w := Sample.asked_for_pin (Some 5) in
  exists w', on_message 0 Sample.env (Sample.text_message 2 " zzzzzz ") w = Some w'
    /\ currentState w' 2 = NONE
    /\ files w' = files w
    /\ emitted w w' = [sendMessage 2 (R_looking_up "ZZZZZZ"); sendMessage 2 R_invalid_pin].
Proof.
  intros w.
  destruct (lookup_always_ends 0 Sample.env (Sample.text_message 2 " zzzzzz ") w " zzzzzz "
              eq_refl eq_refl) as (w' & Hrun & Hend & Hfiles & _ & Hmiss).
  exists w'. repeat split; try assumption. apply Hmiss; try reflexivity. discriminate.
Defined.

(** X17.  An upload that fails stores nothing: when the write of the
    record throws, the user gets the upload error after the "storing"
    message, the collection is as it was (the PIN that was drawn stays
    free); and when the collection is not configured the only reply is
    "unavailable".  A run without a command ends the flow in both cases. *)
Theorem upload_failure_stores_nothing (fuel : nat) (env : Env) (msg : Msg) (w : World)
    (fileObj : FileObj) (fileName : string) :
  currentState w (chat_id msg) = UPLOAD_WAIT_FILE ->
  select_file msg = Picked fileObj fileName ->
  declared_oversized (file_size fileObj) = false ->
  command_text msg = None ->
  (FILES_COLLECTION env = false ->
     exists w', on_message fuel env msg w = Some w'
       /\ emitted w w' = [sendMessage (chat_id msg) R_upload_unavailable]
       /\ files w' = files w
       /\ currentState w' (chat_id msg) = NONE)
  /\ (forall P,
        FILES_COLLECTION env = true ->
        generateUniquePin fuel env (files w) = Some P ->
        firestore_set_throws env (fileMetadata msg fileObj fileName P) = true ->
        exists w', on_message fuel env msg w = Some w'
          /\ emitted w w' = [sendMessage (chat_id msg) R_storing_file;
                             sendMessage (chat_id msg) R_upload_error]
          /\ files w' = files w
          /\ files w' !! P = None
          /\ currentState w' (chat_id msg) = NONE).
Proof.
  intros Hs Hsel Hsize Hc. unfold on_message. rewrite Hs. cbn [conversation].
  unfold on_UPLOAD_WAIT_FILE. rewrite Hsel, Hsize. split.
  - intros ->. cbn [negb]. eexists. split; [reflexivity|].
    split; [now apply emitted_app|]. split; [reflexivity|apply currentState_delete_state].
  - intros P -> Hpin Hset. cbn [negb files say emit]. rewrite Hpin, Hset.
    rewrite commands_no_command by (try discriminate; assumption).
    eexists. split; [reflexivity|].
    split; [apply emitted_app; simpl; now rewrite <- app_assoc|].
    split; [reflexivity|]. split; [|apply currentState_delete_state].
    simpl. now apply generateUniquePin_from_Some in Hpin as (_ & _ & Hfree).
Qed.

Lemma upload_failure_stores_nothing_witness :
  let w := Sample.waiting_for_file in
  let msg := Sample.document_message 1 (Some 10) in
  (exists w', on_message 1 Sample2.env_down msg w = Some w'
     /\ emitted w w' = [sendMessage 1 R_upload_unavailable]
     /\ files w' = files w
     /\ currentState w' 1 = NONE)
  /\ (exists w', on_message 1 Sample2.env_write_failing msg w = Some w'
     /\ emitted w w' = [sendMessage 1 R_storing_file; sendMessage 1 R_upload_error]
     /\ files w' = files w
     /\ files w' !! "ABCDEF" = None
     /\ currentState w' 1 = NONE).
Proof.
  intros w msg. split.
  - apply (upload_failure_stores_nothing 1 Sample2.env_down msg w
             (Sample.attachment (Some 10)) "report.pdf"); reflexivity.
  - apply (upload_failure_stores_nothing 1 Sample2.env_write_failing msg w
             (Sample.attachment (Some 10)) "report.pdf" eq_refl eq_refl eq_refl eq_refl);
      reflexivity.
Defined.



(** X19.  An empty [photo] array stops the run: with no document, video or
    audio, the upload branch reads a field of the missing last element at
    line 325; the exception is not caught, no reply is sent, and the session
    and the collection stay as they were. *)
Theorem upload_empty_photo_array_throws (fuel : nat) (env : Env) (msg : Msg) (w : World) :
  currentState w (chat_id msg) = UPLOAD_WAIT_FILE ->
  document msg = None -> video msg = None -> audio msg = None ->
  photo msg = Some [] ->
  on_message fuel env msg w = Some (emit uncaughtTypeError w).
Proof.
  intros Hs Hd Hv Ha Hp. unfold on_message. rewrite Hs. cbn [conversation].
  unfold on_UPLOAD_WAIT_FILE, select_file. rewrite Hd, Hv, Ha, Hp. reflexivity.
Qed.

Lemma upload_empty_photo_array_throws_witness :
  on_message 1 Sample.env (Sample2.photo_message 1 []) Sample.waiting_for_file
  = Some (emit uncaughtTypeError Sample.waiting_for_file).
Proof.
  exact (upload_empty_photo_array_throws 1 Sample.env (Sample2.photo_message 1 [])
           Sample.waiting_for_file eq_refl eq_refl eq_refl eq_refl eq_refl).
Defined.

(** X20.  An upload hangs while the collection cannot be read: with the
    collection configured, an attachment that passes the size test and every
    read throwing, [generateUniquePin] keeps drawing, and the run has not
    returned after any number of iterations. *)
Theorem upload_hangs_when_reads_throw (env : Env) (msg : Msg) (w : World)
    (fileObj : FileObj) (fileName : string) :
  currentState w (chat_id msg) = UPLOAD_WAIT_FILE ->
  select_file msg = Picked fileObj fileName ->
  declared_oversized (file_size fileObj) = false ->
  FILES_COLLECTION env = true ->
  (forall n, firestore_get_throws env n = true) ->
  forall fuel, on_message fuel env msg w = None.
Proof.
  intros Hs Hsel Hsize Hdb Hget fuel. unfold on_message. rewrite Hs. cbn [conversation].
  unfold on_UPLOAD_WAIT_FILE. rewrite Hsel, Hsize, Hdb. cbn [negb files say emit].
  assert (generateUniquePin fuel env (files w) = None) as ->; [|reflexivity].
  apply generateUniquePin_from_rejected. intros j _. unfold isPinUnique.
  now rewrite Hdb, Hget.
Qed.

Lemma upload_hangs_when_reads_throw_witness :
  on_message 1000 Sample2.env_store_failing (Sample.document_message 1 (Some 10))
    Sample.waiting_for_file = None.
Proof.
  apply (upload_hangs_when_reads_throw Sample2.env_store_failing
           (Sample.document_message 1 (Some 10)) Sample.waiting_for_file
           (Sample.attachment (Some 10)) "report.pdf"); try reflexivity.
Defined.

(** X29.  While a file is waited for, a message without an attachment does
    nothing but repeat the prompt: whether it is a text, a command or
    neither, the only effect is the prompt for a file, and the state, the
    pending number and the collection are as before. *)
Theorem upload_wait_needs_attachment (fuel : nat) (env : Env) (msg : Msg) (w : World) :
  currentState w (chat_id msg) = UPLOAD_WAIT_FILE ->
  has_attachment msg = false ->
  on_message fuel env msg w = Some (say (chat_id msg) R_send_valid_file w)
  /\ currentState (say (chat_id msg) R_send_valid_file w) (chat_id msg) = UPLOAD_WAIT_FILE.
Proof.
  intros Hs Hatt. unfold on_message. rewrite Hs. cbn [conversation].
  unfold on_UPLOAD_WAIT_FILE, select_file. unfold has_attachment in Hatt.
  destruct (document msg), (photo msg), (video msg), (audio msg); try discriminate.
  split; [reflexivity|exact Hs].
Qed.

Lemma upload_wait_needs_attachment_witness :
  on_message 0 Sample.env (Sample.text_message 1 "/sendmsg") Sample.waiting_for_file
  = Some (say 1 R_send_valid_file Sample.waiting_for_file)
  /\ currentState (say 1 R_send_valid_file Sample.waiting_for_file) 1 = UPLOAD_WAIT_FILE.
Proof.
  exact (upload_wait_needs_attachment 0 Sample.env (Sample.text_message 1 "/sendmsg")
           Sample.waiting_for_file eq_refl eq_refl).
Defined.

(** ** More on the send-message flow *)

(** X21.  The whole send-message flow: from a chat with no flow going on,
    [/sendmsg], then a number of ten or more digits, then a text that is no
    command, are answered with the two prompts and the outcome of the relay,
    which is posted once with that number and that text; the flow is over
    and the number is deleted. *)
Theorem sendmsg_scenario (fuel : nat) (env : Env) (c : Z) (w : World) (number body : string) :
  currentState w c = NONE ->
  is_phone_number number = true ->
  body <> "" ->
  Js.startsWith "/" body = false ->
  exists w',
    on_messages fuel env
      [Sample.text_message c "/sendmsg"; Sample.text_message c number;
       Sample.text_message c body] w = Some w'
    /\ emitted w w'
       = [sendMessage c R_ask_number;
          sendMessage c R_ask_message;
          sendMessage c R_sending_message;
          relayPost number body;
          sendMessage c (if sendMessageViaApi env number body
                         then R_message_sent else R_message_failed)]
    /\ currentState w' c = NONE
    /\ pendingNumber w' c = None.
Proof.
  intros Hs Hvalid Hne Hplain.
  set (w1 := say c R_ask_number (set_state c SENDMSG_ASK_NUMBER w)).
  set (w2 := say c R_ask_message
               (set_number c number (set_state c SENDMSG_ASK_MESSAGE w1))).
  assert (H1 : on_message fuel env (Sample.text_message c "/sendmsg") w = Some w1).
  { unfold on_message. cbn [chat_id Sample.text_message]. rewrite Hs. reflexivity. }
  assert (Hp2 : plain_text (Sample.text_message c number) = Some number)
    by (now apply is_phone_number_plain).
  assert (H2 : on_message fuel env (Sample.text_message c number) w1 = Some w2).
  { unfold on_message. cbn [chat_id Sample.text_message].
    assert (currentState w1 c = SENDMSG_ASK_NUMBER) as ->
      by (unfold w1, currentState; simpl; now rewrite lookup_insert_eq).
    cbn [conversation]. unfold on_SENDMSG_ASK_NUMBER. rewrite Hp2, Hvalid. cbn [negb].
    rewrite commands_no_command
      by (try discriminate; eapply plain_text_not_command; eassumption).
    reflexivity. }
  assert (Hp3 : plain_text (Sample.text_message c body) = Some body)
    by (apply plain_text_Some; repeat split; assumption).
  simpl. rewrite H1, H2.
  unfold on_message. cbn [chat_id Sample.text_message].
  assert (currentState w2 c = SENDMSG_ASK_MESSAGE) as ->
    by (unfold w2, currentState; simpl; now rewrite lookup_insert_eq).
  cbn [conversation]. unfold on_SENDMSG_ASK_MESSAGE. rewrite Hp3.
  assert (pendingNumber w2 (chat_id (Sample.text_message c body)) = Some number) as ->
    by (unfold w2, pendingNumber; simpl; now rewrite lookup_insert_eq).
  rewrite (is_phone_number_truthy number Hvalid).
  assert (Js.truthy body = true) as -> by (destruct body; [congruence|reflexivity]).
  cbn [andb].
  rewrite commands_no_command
    by (try discriminate; eapply plain_text_not_command; eassumption).
  eexists. split; [reflexivity|]. split; [|split].
  - apply emitted_app.
    destruct (sendMessageViaApi env number body); simpl; rewrite <- !app_assoc; reflexivity.
  - unfold currentState. simpl. now rewrite lookup_delete_eq.
  - unfold pendingNumber. simpl. now rewrite lookup_delete_eq.
Qed.

Lemma sendmsg_scenario_witness :
  exists w',
    on_messages 0 Sample.env
      [Sample.text_message 1 "/sendmsg"; Sample.text_message 1 "94712345678";
       Sample.text_message 1 "hello"] (fresh ∅) = Some w'
    /\ emitted (fresh ∅) w'
       = [sendMessage 1 R_ask_number;
          sendMessage 1 R_ask_message;
          sendMessage 1 R_sending_message;
          relayPost "94712345678" "hello";
          sendMessage 1 (if sendMessageViaApi Sample.env "94712345678" "hello"
                         then R_message_sent else R_message_failed)]
    /\ currentState w' 1 = NONE
    /\ pendingNumber w' 1 = None.
Proof.
  apply (sendmsg_scenario 0 Sample.env 1 (fresh ∅) "94712345678" "hello");
    try reflexivity.
  discriminate.
Defined.

(** X22.  The user is told "sent" exactly when the relay answered 2xx with
    [status] equal to ["success"]: in state [SENDMSG_ASK_MESSAGE] of a world
    the bot has reached, for a text that is no command, the success message
    is among the replies if and only if the response to the post of the
    pending number and the text was such an answer. *)
Theorem message_sent_iff_relay_success (fuel : nat) (env : Env) (msg : Msg)
    (w w' : World) (t : string) :
  Reachable w ->
  currentState w (chat_id msg) = SENDMSG_ASK_MESSAGE ->
  plain_text msg = Some t ->
  on_message fuel env msg w = Some w' ->
  exists number,
    pendingNumber w (chat_id msg) = Some number
    /\ (sendMessage (chat_id msg) R_message_sent ∈ emitted w w'
        <-> relay_response env number t = RelayHttp true (Some "success")).
Proof.
  intros Hreach Hs Ht.
  destruct (reachable_number_ready w (chat_id msg) Hreach) as (number & Hn & Hvalid).
  { apply currentState_Some; [discriminate|exact Hs]. }
  unfold on_message. rewrite Hs. cbn [conversation]. unfold on_SENDMSG_ASK_MESSAGE.
  rewrite Ht. unfold pendingNumber. rewrite Hn.
  rewrite (is_phone_number_truthy number Hvalid).
  assert (Js.truthy t = true) as ->.
  { apply plain_text_Some in Ht as (_ & Hne & _). destruct t; [congruence|reflexivity]. }
  cbn [andb].
  rewrite commands_no_command
    by (try discriminate; eapply plain_text_not_command; eassumption).
  intros [= <-]. exists number. split; [reflexivity|].
  rewrite <- sendMessageViaApi_true.
  destruct (sendMessageViaApi env number t); erewrite emitted_app
    by (simpl; rewrite <- !app_assoc; reflexivity).
  - split; [reflexivity|]. intros _. set_solver.
  - split; [|discriminate]. intros H.
    repeat (apply elem_of_cons in H as [H|H]; [discriminate|]).
    now apply elem_of_nil in H.
Qed.

Lemma message_sent_iff_relay_success_witness :
  let w := Sample.number_given in
  let w' := Sample.after 0 Sample2.env_store_failing (Sample.text_message 1 "hello") w in
  exists number,
    pendingNumber w 1 = Some number
    /\ (sendMessage 1 R_message_sent ∈ emitted w w'
        <-> relay_response Sample2.env_store_failing number "hello"
            = RelayHttp true (Some "success")).
Proof.
  intros w w'.
  exact (message_sent_iff_relay_success 0 Sample2.env_store_failing
           (Sample.text_message 1 "hello") w w' "hello"
           number_given_reachable eq_refl eq_refl eq_refl).
Defined.

(** X23.  The message is asked for only when there is a number to send it
    to: in every world the bot reaches, a chat in state
    [SENDMSG_ASK_MESSAGE] has a pending number, and it is one that passed
    the test of ten or more digits. *)
Theorem reachable_ask_message_has_number (w : World) (chat : Z) :
  Reachable w ->
  currentState w chat = SENDMSG_ASK_MESSAGE ->
  exists number, pendingNumber w chat = Some number /\ is_phone_number number = true.
Proof.
  intros Hreach Hs. apply (reachable_number_ready w chat Hreach).
  apply currentState_Some; [discriminate|exact Hs].
Qed.

Lemma reachable_ask_message_has_number_witness :
  exists number, pendingNumber Sample.number_given 1 = Some number
                 /\ is_phone_number number = true.
Proof.
  exact (reachable_ask_message_has_number Sample.number_given 1
           number_given_reachable eq_refl).
Defined.

Lemma entering_ask_message_sets_number_witness :
  let w := Sample.asked_for_number in
  let msg := Sample.text_message 1 "94712345678" in
  let w' := Sample.after 0 Sample.env msg w in
  currentState w' 1 = SENDMSG_ASK_MESSAGE
  /\ exists t, text msg = Some t /\ pendingNumber w' 1 = Some t.
Proof.
  intros w msg w'. split; [reflexivity|].
  apply (entering_ask_message_sets_number 0 Sample.env msg w w'); try reflexivity.
  discriminate.
Defined.

Lemma cancel_from_other_states_witness :
  let w := Sample.asked_for_message in
  exists w', on_message 0 Sample.env (Sample.text_message 1 "/cancel") w = Some w'
    /\ currentState w' 1 = NONE
    /\ pendingNumber w' 1 = None
    /\ exists w'', on_message 0 Sample.env (Sample.text_message 1 "/cancel") w' = Some w''
         /\ userStates w'' = userStates w' /\ userNumbers w'' = userNumbers w'.
Proof.
  intros w. apply (cancel_from_other_states 0 Sample.env 1 w). discriminate.
Defined.

Lemma ask_url_answer_witness :
  let w := Sample.asked_for_url in
  (exists w', on_message 0 Sample.env (Sample.text_message 1 "example.com/a.txt") w = Some w'
     /\ w' = say 1 R_invalid_url w
     /\ currentState w' 1 = DOWNLOAD_ASK_URL)
  /\ (exists w', on_message 0 Sample.env (Sample.text_message 1 "http://example.com/a.txt") w
                 = Some w'
     /\ currentState w' 1 = NONE).
Proof.
  intros w. split.
  - destruct (ask_url_answer 0 Sample.env (Sample.text_message 1 "example.com/a.txt") w
                "example.com/a.txt" eq_refl eq_refl) as (w' & Hrun & H).
    exists w'. split; [exact Hrun|exact H].
  - destruct (ask_url_answer 0 Sample.env (Sample.text_message 1 "http://example.com/a.txt") w
                "http://example.com/a.txt" eq_refl eq_refl) as (w' & Hrun & H).
    exists w'. split; [exact Hrun|]. apply H.
Defined.
